(** * VideoPlayer: the playback synchronisation engine

    A shallow embedding of [src/VideoPlayer.tsx] (the React component
    [VideoPlayer]) and of the part of [src/App.tsx] that feeds it
    ([jumpToTimecode]), with the properties of the specification stated
    over it.

    Modelling choices.
    - A JavaScript number is a finite exact rational or one of the three
      non-finite doubles [NaN], [+Infinity], [-Infinity].  Rounding and the
      sign of zero are not modelled; the non-finite values are, because the
      component divides by a duration that is [NaN] or [0] before the
      metadata of the media has loaded.
    - A handler is a function from the values of the render it closes over
      to the state after its [setState] calls, together with the commands
      it issues on the media element ([video.play()], [video.pause()] and
      the writes to [video.currentTime], [video.volume] and
      [video.playbackRate]), in order.  A handler that dereferences
      [video] while it is [null] throws a [TypeError]; the outcome [Threw]
      keeps what it had done until then.
    - [useEffect] is modelled by the dependency array of the previous
      commit: an effect runs on mount and whenever one of its dependencies
      differs (by [Object.is]) from the previous commit.  Objects carry
      their reference identity. *)

From Stdlib Require Import List Bool ZArith QArith Qcanon String Ascii Lia.
From Stdlib Require Import Sorted RelationClasses.
From Stdlib Require Import Qround DecimalString.
Import ListNotations.

Set Implicit Arguments.

(** ** JavaScript numbers *)

Module JS.

Inductive num : Type :=
| Fin (q : Qc)
| NaN
| PosInf
| NegInf.

Definition of_Z (z : Z) : num := Fin (Q2Qc (inject_Z z)).
Definition of_Q (q : Q) : num := Fin (Q2Qc q).

Definition zero : num := of_Z 0.
Definition one : num := of_Z 1.

Definition Qc_eqb (a b : Qc) : bool := Qeq_bool a b.
Definition Qc_leb (a b : Qc) : bool := Qle_bool a b.
Definition Qc_ltb (a b : Qc) : bool := negb (Qle_bool b a).

(** [a === b] on numbers: [NaN] is equal to nothing. *)
Definition strict_eq (a b : num) : bool :=
  match a, b with
  | Fin x, Fin y => Qc_eqb x y
  | PosInf, PosInf => true
  | NegInf, NegInf => true
  | _, _ => false
  end.

(** [Object.is(a, b)] on numbers, as [useEffect] compares dependencies:
    [NaN] is the same value as [NaN]. *)
Definition same_value (a b : num) : bool :=
  match a, b with
  | NaN, NaN => true
  | _, _ => strict_eq a b
  end.

(** [a <= b]: false as soon as one side is [NaN]. *)
Definition le (a b : num) : bool :=
  match a, b with
  | NaN, _ | _, NaN => false
  | NegInf, _ => true
  | _, PosInf => true
  | Fin x, Fin y => Qc_leb x y
  | _, _ => false
  end.

(** [a < b]. *)
Definition lt (a b : num) : bool :=
  match a, b with
  | NaN, _ | _, NaN => false
  | PosInf, _ => false
  | _, NegInf => false
  | Fin x, Fin y => Qc_ltb x y
  | _, _ => true
  end.

(** Sign of a number that is not [NaN]: [-1], [0] or [1]. *)
Definition sign (a : num) : Z :=
  match a with
  | Fin x => if Qc_eqb x 0 then 0%Z else if Qc_ltb x 0 then (-1)%Z else 1%Z
  | PosInf => 1%Z
  | NegInf => (-1)%Z
  | NaN => 0%Z
  end.

Definition inf_of_sign (s : Z) : num :=
  if (s <? 0)%Z then NegInf else PosInf.

(** [a * b]. *)
Definition mul (a b : num) : num :=
  match a, b with
  | NaN, _ | _, NaN => NaN
  | Fin x, Fin y => Fin (x * y)
  | _, _ =>
      if (sign a * sign b =? 0)%Z then NaN
      else inf_of_sign (sign a * sign b)
  end.

(** [a / b]: [0/0] is [NaN], a non-zero number over [0] is infinite. *)
Definition div (a b : num) : num :=
  match a, b with
  | NaN, _ | _, NaN => NaN
  | Fin x, Fin y =>
      if Qc_eqb y 0
      then (if Qc_eqb x 0 then NaN else inf_of_sign (sign a))
      else Fin (x / y)
  | Fin _, _ => zero
  | _, Fin _ => inf_of_sign (sign a * (if (sign b =? 0)%Z then 1 else sign b))
  | _, _ => NaN
  end.

(** Truthiness of a number: [0] and [NaN] are falsy. *)
Definition truthy (a : num) : bool :=
  match a with
  | NaN => false
  | Fin x => negb (Qc_eqb x 0)
  | _ => true
  end.

(** [a || b] on numbers. *)
Definition or (a b : num) : num := if truthy a then a else b.

(** Truthiness of a string: only the empty string is falsy. *)
Definition truthy_string (s : string) : bool :=
  match s with
  | EmptyString => false
  | _ => true
  end.

End JS.

Definition num : Type := JS.num.

(** ** Data model *)

(** An entry of [objects]: [{name, box_2d?}], the box as
    [[ymin, xmin, ymax, xmax]]. *)
Record DetectedObject : Type := mkObject {
  obj_name : string;
  box_2d : option (num * num * num * num)
}.

(** A timecode entry: [{time, text?, value?, objects?}]. *)
Record Timecode : Type := mkTimecode {
  time : string;
  text : option string;
  value : option num;
  objects : option (list DetectedObject)
}.

(** The seek request built by [jumpToTimecode] in [App.tsx]:
    [{time, ts: Date.now()}].  [so_ref] is the identity of the object,
    which is what a dependency array compares. *)
Record SeekOperation : Type := mkSeek {
  so_ref : nat;
  so_time : num;
  so_ts : Z
}.

(** The props of [VideoPlayer] ([jumpToTimecode], a callback of the host,
    appears as the command [HostJumpToTimecode]). *)
Record Props : Type := mkProps {
  url : option string;
  timecodeList : option (list Timecode);
  seekOperation : option SeekOperation;
  isLoadingVideo : bool;
  videoError : bool
}.

(** The [useState] cells of the component.  [video] holds the identity of
    the [<video>] element handed over by the ref callback [setVideo]. *)
Record PlayerState : Type := mkState {
  video : option nat;
  duration : num;
  scrubberTime : num;
  isPlaying : bool;
  isScrubbing : bool;
  currentData : option Timecode;
  volume : num;
  isMuted : bool;
  playbackRate : num;
  isFullscreen : bool
}.

(** The initial values of the [useState] calls. *)
Definition initialState : PlayerState :=
  {| video := None; duration := JS.zero; scrubberTime := JS.zero;
     isPlaying := false; isScrubbing := false; currentData := None;
     volume := JS.one; isMuted := false; playbackRate := JS.one;
     isFullscreen := false |}.

Definition setVideo (v : option nat) (s : PlayerState) : PlayerState :=
  {| video := v; duration := duration s; scrubberTime := scrubberTime s;
     isPlaying := isPlaying s; isScrubbing := isScrubbing s;
     currentData := currentData s; volume := volume s; isMuted := isMuted s;
     playbackRate := playbackRate s; isFullscreen := isFullscreen s |}.

Definition setDuration (d : num) (s : PlayerState) : PlayerState :=
  {| video := video s; duration := d; scrubberTime := scrubberTime s;
     isPlaying := isPlaying s; isScrubbing := isScrubbing s;
     currentData := currentData s; volume := volume s; isMuted := isMuted s;
     playbackRate := playbackRate s; isFullscreen := isFullscreen s |}.

Definition setScrubberTime (t : num) (s : PlayerState) : PlayerState :=
  {| video := video s; duration := duration s; scrubberTime := t;
     isPlaying := isPlaying s; isScrubbing := isScrubbing s;
     currentData := currentData s; volume := volume s; isMuted := isMuted s;
     playbackRate := playbackRate s; isFullscreen := isFullscreen s |}.

Definition setIsPlaying (b : bool) (s : PlayerState) : PlayerState :=
  {| video := video s; duration := duration s; scrubberTime := scrubberTime s;
     isPlaying := b; isScrubbing := isScrubbing s;
     currentData := currentData s; volume := volume s; isMuted := isMuted s;
     playbackRate := playbackRate s; isFullscreen := isFullscreen s |}.

Definition setIsScrubbing (b : bool) (s : PlayerState) : PlayerState :=
  {| video := video s; duration := duration s; scrubberTime := scrubberTime s;
     isPlaying := isPlaying s; isScrubbing := b;
     currentData := currentData s; volume := volume s; isMuted := isMuted s;
     playbackRate := playbackRate s; isFullscreen := isFullscreen s |}.

Definition setCurrentData (d : option Timecode) (s : PlayerState)
  : PlayerState :=
  {| video := video s; duration := duration s; scrubberTime := scrubberTime s;
     isPlaying := isPlaying s; isScrubbing := isScrubbing s;
     currentData := d; volume := volume s; isMuted := isMuted s;
     playbackRate := playbackRate s; isFullscreen := isFullscreen s |}.

Definition setVolume (v : num) (s : PlayerState) : PlayerState :=
  {| video := video s; duration := duration s; scrubberTime := scrubberTime s;
     isPlaying := isPlaying s; isScrubbing := isScrubbing s;
     currentData := currentData s; volume := v; isMuted := isMuted s;
     playbackRate := playbackRate s; isFullscreen := isFullscreen s |}.

Definition setIsMuted (b : bool) (s : PlayerState) : PlayerState :=
  {| video := video s; duration := duration s; scrubberTime := scrubberTime s;
     isPlaying := isPlaying s; isScrubbing := isScrubbing s;
     currentData := currentData s; volume := volume s; isMuted := b;
     playbackRate := playbackRate s; isFullscreen := isFullscreen s |}.

Definition setPlaybackRate (r : num) (s : PlayerState) : PlayerState :=
  {| video := video s; duration := duration s; scrubberTime := scrubberTime s;
     isPlaying := isPlaying s; isScrubbing := isScrubbing s;
     currentData := currentData s; volume := volume s; isMuted := isMuted s;
     playbackRate := r; isFullscreen := isFullscreen s |}.

Definition setIsFullscreen (b : bool) (s : PlayerState) : PlayerState :=
  {| video := video s; duration := duration s; scrubberTime := scrubberTime s;
     isPlaying := isPlaying s; isScrubbing := isScrubbing s;
     currentData := currentData s; volume := volume s; isMuted := isMuted s;
     playbackRate := playbackRate s; isFullscreen := b |}.

(** What a handler reads from the page when it runs: the live
    [currentTime] and [duration] of the media element and whether
    [document.fullscreenElement] is set. *)
Record Dom : Type := mkDom {
  el_currentTime : num;
  el_duration : num;
  fullscreenElement : bool
}.

(** What the component does to the outside, in order. *)
Inductive Cmd : Type :=
| Play                          (* video.play() *)
| Pause                         (* video.pause() *)
| SetCurrentTime (t : num)      (* video.currentTime = t *)
| SetVolume (v : num)           (* video.volume = v *)
| SetPlaybackRate (r : num)     (* video.playbackRate = r *)
| RequestFullscreen             (* playerRef.current?.requestFullscreen() *)
| ExitFullscreen                (* document.exitFullscreen() *)
| HostJumpToTimecode (secs : num). (* jumpToTimecode(secs) *)

(** How a handler ends: it returns, or it throws (a [TypeError], on
    reading a property of [video] while [video] is [null]).  Either way
    the [setState] calls made and the commands issued until then stand. *)
Inductive Outcome : Type :=
| Returned (s : PlayerState) (k : list Cmd)
| Threw (s : PlayerState) (k : list Cmd).

Definition stateOf (o : Outcome) : PlayerState :=
  match o with
  | Returned s _ | Threw s _ => s
  end.

Definition commandsOf (o : Outcome) : list Cmd :=
  match o with
  | Returned _ k | Threw _ k => k
  end.

(** The target of a keyboard event.  The handler reads [tagName] only;
    [inputType] and [isContentEditable] are what the page knows beyond
    it. *)
Record Element : Type := mkElement {
  tagName : string;
  inputType : string;
  isContentEditable : bool
}.

Record KeyEvent : Type := mkKey {
  target : Element;
  key : string
}.

(** The seek commands among the commands issued. *)
Definition isSeek (c : Cmd) : bool :=
  match c with
  | SetCurrentTime _ => true
  | _ => false
  end.

Definition seeks (k : list Cmd) : list Cmd := filter isSeek k.

(** The values of the [type] of an [<input>] into which text is typed. *)
Definition textInputTypes : list string :=
  ["text"; "search"; "url"; "tel"; "email"; "password"; "number"; ""]%string.

(** In the words of the spec, an editable text control is a target with
    the capability of accepting text input: a [<textarea>], an [<input>]
    of a type into which text is typed, or an element that is
    [contenteditable]. *)
Definition acceptsTextInput (e : Element) : bool :=
  isContentEditable e
  || String.eqb (tagName e) "TEXTAREA"%string
  || (String.eqb (tagName e) "INPUT"%string
      && existsb (String.eqb (inputType e)) textInputTypes).

(** ** The component *)

Section VideoPlayer.

(** [timeToSecs], imported from [./utils]: the number of seconds a
    formatted position stands for. *)
Variable timeToSecs : string -> num.

(** The seconds equivalent of the [time] of an entry. *)
Definition secs (t : Timecode) : num := timeToSecs (time t).

(** The invariant of the list the host supplies: it is in ascending order
    of the seconds of its entries, each entry being [<=] the next one. *)
Definition ascending (l : list Timecode) : Prop :=
  Sorted (fun a b => JS.le (secs a) (secs b) = true) l.

(** *** Values derived during a render *)

(** [const currentSecs = duration * scrubberTime || 0] *)
Definition currentSecs (s : PlayerState) : num :=
  JS.or (JS.mul (duration s) (scrubberTime s)) JS.zero.

(** [const currentPercent = scrubberTime * 100] *)
Definition currentPercent (s : PlayerState) : num :=
  JS.mul (scrubberTime s) (JS.of_Z 100).

(** [value={scrubberTime || 0}] of the scrubber input. *)
Definition scrubberValue (s : PlayerState) : num :=
  JS.or (scrubberTime s) JS.zero.

(** [useMemo(() => timecodeList?.toReversed(), [timecodeList])] *)
Definition timecodeListReversed (p : Props) : option (list Timecode) :=
  option_map (@rev Timecode) (timecodeList p).

(** The [<video>] element is rendered when [url && !isLoadingVideo]. *)
Definition showsVideo (p : Props) : bool :=
  match url p with
  | Some u => JS.truthy_string u && negb (isLoadingVideo p)
  | None => false
  end.

(** [value={isMuted ? 0 : volume}] of the volume slider, and the value the
    volume effect writes to the element. *)
Definition effectiveVolume (s : PlayerState) : num :=
  if isMuted s then JS.zero else volume s.

(** *** Handlers *)

(** [togglePlay]: [video.pause()] when [isPlaying], [video.play()]
    otherwise; no state is set. *)
Definition togglePlay (s : PlayerState) : Outcome :=
  match video s with
  | None => Threw s []
  | Some _ => Returned s [if isPlaying s then Pause else Play]
  end.

(** [updateDuration = () => setDuration(video.duration)] *)
Definition updateDuration (dom : Dom) (s : PlayerState) : Outcome :=
  match video s with
  | None => Threw s []
  | Some _ => Returned (setDuration (el_duration dom) s) []
  end.

(** The annotation [updateTime] looks up:
    [timecodeListReversed.find((t) => timeToSecs(t.time) <= video.currentTime)],
    [undefined] being [None]. *)
Definition findAnnotation (reversed : list Timecode) (currentTime : num)
  : option Timecode :=
  find (fun t => JS.le (timeToSecs (time t)) currentTime) reversed.

(** [updateTime].  [video] is dereferenced in the first branch, and in the
    callback of [find], which runs when the list has an entry. *)
Definition updateTime (p : Props) (dom : Dom) (s : PlayerState) : Outcome :=
  let first :=
    if negb (isScrubbing s) then
      match video s with
      | None => None
      | Some _ =>
          Some (setScrubberTime
                  (JS.div (el_currentTime dom) (el_duration dom)) s)
      end
    else Some s in
  match first with
  | None => Threw s []
  | Some s1 =>
      match timecodeList p, timecodeListReversed p with
      | Some _, Some reversed =>
          match reversed, video s with
          | _ :: _, None => Threw s1 []
          | _, _ =>
              Returned
                (setCurrentData
                   (findAnnotation reversed (el_currentTime dom)) s1) []
          end
      | _, _ => Returned s1 []
      end
  end.

(** [onPlay] and [onPause]. *)
Definition onPlay (s : PlayerState) : PlayerState := setIsPlaying true s.
Definition onPause (s : PlayerState) : PlayerState := setIsPlaying false s.

(** [rates] of [cyclePlaybackRate]. *)
Definition rates : list num :=
  [JS.of_Q (1 # 2); JS.of_Z 1; JS.of_Q (3 # 2); JS.of_Z 2].

(** [Array.prototype.indexOf]: the first index whose element is [===] the
    value, [-1] when there is none. *)
Fixpoint indexOf_from (i : Z) (l : list num) (x : num) : Z :=
  match l with
  | [] => (-1)%Z
  | y :: l' => if JS.strict_eq y x then i else indexOf_from (i + 1) l' x
  end.

Definition indexOf (l : list num) (x : num) : Z := indexOf_from 0 l x.

(** [(rates.indexOf(playbackRate) + 1) % rates.length] *)
Definition nextIndex (r : num) : Z :=
  Z.rem (indexOf rates r + 1) (Z.of_nat (List.length rates)).

(** [rates[i]]; an index outside the array reads [undefined], which no
    call of [cyclePlaybackRate] reaches ([nextIndex_range]). *)
Definition rates_at (i : Z) : option num :=
  if (i <? 0)%Z then None else nth_error rates (Z.to_nat i).

(** The rate [cyclePlaybackRate] passes to [setPlaybackRate]. *)
Definition nextRate (r : num) : num :=
  match rates_at (nextIndex r) with
  | Some r' => r'
  | None => JS.NaN
  end.

Definition cyclePlaybackRate (s : PlayerState) : PlayerState :=
  setPlaybackRate (nextRate (playbackRate s)) s.

(** [toggleMute = () => setIsMuted(!isMuted)] *)
Definition toggleMute (s : PlayerState) : PlayerState :=
  setIsMuted (negb (isMuted s)) s.

(** [onChange] of the volume slider. *)
Definition volumeChange (v : num) (s : PlayerState) : PlayerState :=
  setIsMuted (JS.strict_eq v JS.zero) (setVolume v s).

(** [onChange] of the scrubber:
    [setScrubberTime(v); video.currentTime = v * duration]. *)
Definition scrubChange (v : num) (s : PlayerState) : Outcome :=
  match video s with
  | None => Threw (setScrubberTime v s) []
  | Some _ =>
      Returned (setScrubberTime v s) [SetCurrentTime (JS.mul v (duration s))]
  end.

(** [onPointerDown] and [onPointerUp] of the scrubber. *)
Definition scrubPointerDown (s : PlayerState) : PlayerState :=
  setIsScrubbing true s.
Definition scrubPointerUp (s : PlayerState) : PlayerState :=
  setIsScrubbing false s.

(** [toggleFullscreen] *)
Definition toggleFullscreen (dom : Dom) : list Cmd :=
  if negb (fullscreenElement dom) then [RequestFullscreen]
  else [ExitFullscreen].

(** [onFullscreenChange] *)
Definition onFullscreenChange (dom : Dom) (s : PlayerState) : PlayerState :=
  setIsFullscreen (fullscreenElement dom) s.

(** The test of [onKeyPress]. *)
Definition keyTogglesPlay (e : KeyEvent) : bool :=
  negb (String.eqb (tagName (target e)) "INPUT"%string)
  && negb (String.eqb (tagName (target e)) "TEXTAREA"%string)
  && String.eqb (key e) " "%string.

Definition onKeyPress (e : KeyEvent) (s : PlayerState) : Outcome :=
  if keyTogglesPlay e then togglePlay s else Returned s [].

(** [onClick] of the tick of the [i]-th timecode marker:
    [jumpToTimecode(timeToSecs(time))]. *)
Definition markerClick (p : Props) (i : nat) : list Cmd :=
  match timecodeList p with
  | Some l =>
      match nth_error l i with
      | Some t => [HostJumpToTimecode (timeToSecs (time t))]
      | None => []
      end
  | None => []
  end.

(** *** Events

    The events the component has a handler for.  A media event carries
    the [src] its element was playing when the event was queued; the
    handlers of the component take no argument and so never look at it. *)
Inductive Event : Type :=
| VideoClick
| PlayButtonClick
| DurationChange (origin : string)
| TimeUpdate (origin : string)
| MediaPlay (origin : string)
| MediaPause (origin : string)
| ScrubChange (v : num)
| ScrubPointerDown
| ScrubPointerUp
| MarkerClick (i : nat)
| MuteClick
| VolumeChange (v : num)
| SpeedClick
| FullscreenClick
| FullscreenChange
| KeyPress (e : KeyEvent).

(** The handler the JSX binds to each event, run against the props and
    state of the current render. *)
Definition handle (p : Props) (dom : Dom) (ev : Event) (s : PlayerState)
  : Outcome :=
  match ev with
  | VideoClick => togglePlay s
  | PlayButtonClick => togglePlay s
  | DurationChange _ => updateDuration dom s
  | TimeUpdate _ => updateTime p dom s
  | MediaPlay _ => Returned (onPlay s) []
  | MediaPause _ => Returned (onPause s) []
  | ScrubChange v => scrubChange v s
  | ScrubPointerDown => Returned (scrubPointerDown s) []
  | ScrubPointerUp => Returned (scrubPointerUp s) []
  | MarkerClick i => Returned s (markerClick p i)
  | MuteClick => Returned (toggleMute s) []
  | VolumeChange v => Returned (volumeChange v s) []
  | SpeedClick => Returned (cyclePlaybackRate s) []
  | FullscreenClick => Returned s (toggleFullscreen dom)
  | FullscreenChange => Returned (onFullscreenChange dom s) []
  | KeyPress e => onKeyPress e s
  end.

(** *** Effects *)

(** The values the dependency arrays of the effects mention, as of one
    commit.  An object is compared by reference: [dep_seek] is the
    identity of the [seekOperation] object. *)
Record Deps : Type := mkDeps {
  dep_url : option string;
  dep_video : option nat;
  dep_seek : option nat;
  dep_volume : num;
  dep_isMuted : bool;
  dep_playbackRate : num
}.

Definition depsOf (p : Props) (s : PlayerState) : Deps :=
  {| dep_url := url p;
     dep_video := video s;
     dep_seek := option_map so_ref (seekOperation p);
     dep_volume := volume s;
     dep_isMuted := isMuted s;
     dep_playbackRate := playbackRate s |}.

Definition same_option {A : Type} (eqb : A -> A -> bool) (a b : option A)
  : bool :=
  match a, b with
  | None, None => true
  | Some x, Some y => eqb x y
  | _, _ => false
  end.

(** Whether an effect runs in a commit: always on mount, otherwise when
    one of its dependencies changed. *)
Definition runs (same : Deps -> Deps -> bool) (prev : option Deps)
  (now : Deps) : bool :=
  match prev with
  | None => true
  | Some d => negb (same d now)
  end.

Definition same_url (a b : Deps) : bool :=
  same_option String.eqb (dep_url a) (dep_url b).

Definition same_video (a b : Deps) : bool :=
  same_option Nat.eqb (dep_video a) (dep_video b).

Definition same_seek (a b : Deps) : bool :=
  same_option Nat.eqb (dep_seek a) (dep_seek b).

(** The effect on [[url]]. *)
Definition resetOnUrl (s : PlayerState) : PlayerState :=
  setCurrentData None
    (setPlaybackRate JS.one (setIsPlaying false (setScrubberTime JS.zero s))).

(** The effect on [[video, seekOperation]]. *)
Definition seekEffect (p : Props) (s : PlayerState) : list Cmd :=
  match video s, seekOperation p with
  | Some _, Some op => [SetCurrentTime (so_time op)]
  | _, _ => []
  end.

(** The effect on [[video, volume, isMuted]]. *)
Definition volumeEffect (s : PlayerState) : list Cmd :=
  match video s with
  | Some _ => [SetVolume (effectiveVolume s)]
  | None => []
  end.

(** The effect on [[video, playbackRate]]. *)
Definition rateEffect (s : PlayerState) : list Cmd :=
  match video s with
  | Some _ => [SetPlaybackRate (playbackRate s)]
  | None => []
  end.

(** A mounted component: its state, the dependencies of its last commit
    ([None] before the first), the [<video>] element in the page, and the
    identity the next element created will get. *)
Record Instance : Type := mkInstance {
  state : PlayerState;
  lastDeps : option Deps;
  element : option nat;
  nextElement : nat
}.

Definition withState (s : PlayerState) (c : Instance) : Instance :=
  {| state := s; lastDeps := lastDeps c; element := element c;
     nextElement := nextElement c |}.

(** One render and commit.  The page is reconciled first: the [<video>]
    element is created or removed, and the ref callback [setVideo] runs
    with the element or with [null].  Then the effects whose dependencies
    changed run, in the order of the source, with the values of this
    render.  The state the commit leaves is the one of the render with the
    [setState] calls of the ref callback and of the effects applied. *)
Definition commit (p : Props) (c : Instance) : Instance * list Cmd :=
  let s := state c in
  let now := depsOf p s in
  let prev := lastDeps c in
  let '(el, next, ref) :=
    match showsVideo p, element c with
    | true, None =>
        (Some (nextElement c), S (nextElement c),
         setVideo (Some (nextElement c)))
    | false, Some _ => (None, nextElement c, setVideo None)
    | _, _ => (element c, nextElement c, fun s : PlayerState => s)
    end in
  let reset :=
    if runs same_url prev now then resetOnUrl
    else fun s : PlayerState => s in
  let seek :=
    if runs (fun a b => same_video a b && same_seek a b) prev now
    then seekEffect p s else [] in
  let vol :=
    if runs (fun a b => same_video a b
                        && JS.same_value (dep_volume a) (dep_volume b)
                        && Bool.eqb (dep_isMuted a) (dep_isMuted b)) prev now
    then volumeEffect s else [] in
  let rate :=
    if runs (fun a b => same_video a b
                        && JS.same_value (dep_playbackRate a)
                             (dep_playbackRate b)) prev now
    then rateEffect s else [] in
  ({| state := reset (ref s); lastDeps := Some now; element := el;
      nextElement := next |},
   seek ++ vol ++ rate).

(** A render of the component with props [p], up to the point where
    nothing is left to do: the commit, and the commit of the re-render
    that the [setState] calls of the first one ask for.  A third pass
    changes nothing ([render_settled]). *)
Definition render (p : Props) (c : Instance) : Instance * list Cmd :=
  let '(c1, k1) := commit p c in
  let '(c2, k2) := commit p c1 in
  (c2, k1 ++ k2).

(** An instance that has rendered with props [p] and whose state has not
    been set since: the dependencies recorded are those of its state, and
    the page has the [<video>] element exactly when [p] shows it. *)
Definition settled (p : Props) (c : Instance) : Prop :=
  lastDeps c = Some (depsOf p (state c))
  /\ showsVideo p = match element c with Some _ => true | None => false end.

(** The component before its first render. *)
Definition unmounted : Instance :=
  {| state := initialState; lastDeps := None; element := None;
     nextElement := 0 |}.

(** An event reaches the component: its handler runs and the component
    renders again with the state the handler set. *)
Definition dispatch (p : Props) (dom : Dom) (ev : Event) (c : Instance)
  : Instance * list Cmd :=
  let o := handle p dom ev (state c) in
  let '(c', k') := render p (withState (stateOf o) c) in
  (c', commandsOf o ++ k').

(** The instances a run of the component goes through, with the props of
    their last render: the first render, and from there renders with new
    props and events. *)
Inductive reachable : Props -> Instance -> Prop :=
| reach_mount (p : Props) : reachable p (fst (render p unmounted))
| reach_render (p p' : Props) (c : Instance) :
    reachable p c -> reachable p' (fst (render p' c))
| reach_event (p : Props) (dom : Dom) (ev : Event) (c : Instance) :
    reachable p c -> reachable p (fst (dispatch p dom ev c)).

End VideoPlayer.

(** ** The host, [App.tsx] *)

(** The state of [App] that reaches the player, and the identity the next
    object it allocates will get. *)
Record App : Type := mkApp {
  vidUrl : option string;
  app_timecodeList : option (list Timecode);
  app_seekOperation : option SeekOperation;
  app_isLoadingVideo : bool;
  app_videoError : bool;
  nextRef : nat
}.

(** [jumpToTimecode = (time) => setSeekOperation({time, ts: Date.now()})],
    [now] being what [Date.now()] returns. *)
Definition jumpToTimecode (now : Z) (t : num) (a : App) : App :=
  {| vidUrl := vidUrl a;
     app_timecodeList := app_timecodeList a;
     app_seekOperation :=
       Some {| so_ref := nextRef a; so_time := t; so_ts := now |};
     app_isLoadingVideo := app_isLoadingVideo a;
     app_videoError := app_videoError a;
     nextRef := S (nextRef a) |}.

(** [uploadVideo], up to its [await]:
    [setIsLoadingVideo(true); setVidUrl(URL.createObjectURL(...))]. *)
Definition uploadVideo_begin (u : string) (a : App) : App :=
  {| vidUrl := Some u;
     app_timecodeList := app_timecodeList a;
     app_seekOperation := app_seekOperation a;
     app_isLoadingVideo := true;
     app_videoError := app_videoError a;
     nextRef := nextRef a |}.

(** [uploadVideo], after [uploadFile] has resolved:
    [setIsLoadingVideo(false)]. *)
Definition uploadVideo_done (a : App) : App :=
  {| vidUrl := vidUrl a;
     app_timecodeList := app_timecodeList a;
     app_seekOperation := app_seekOperation a;
     app_isLoadingVideo := false;
     app_videoError := app_videoError a;
     nextRef := nextRef a |}.

(** [uploadVideo], after [uploadFile] has failed: [setVideoError(true)]. *)
Definition uploadVideo_failed (a : App) : App :=
  {| vidUrl := vidUrl a;
     app_timecodeList := app_timecodeList a;
     app_seekOperation := app_seekOperation a;
     app_isLoadingVideo := app_isLoadingVideo a;
     app_videoError := true;
     nextRef := nextRef a |}.

(** The [useState] initial values of [App]. *)
Definition initialApp : App :=
  {| vidUrl := None; app_timecodeList := None; app_seekOperation := None;
     app_isLoadingVideo := false; app_videoError := false; nextRef := 0 |}.

(** Every object [App] holds was allocated before [nextRef]. *)
Definition allocated (a : App) : Prop :=
  match app_seekOperation a with
  | Some op => (so_ref op < nextRef a)%nat
  | None => True
  end.

(** The props [App] passes to [<VideoPlayer>]. *)
Definition playerProps (a : App) : Props :=
  {| url := vidUrl a;
     timecodeList := app_timecodeList a;
     seekOperation := app_seekOperation a;
     isLoadingVideo := app_isLoadingVideo a;
     videoError := app_videoError a |}.

(** ** [timeToSecs] *)

Module Utils.

Definition digit (c : ascii) : option Z :=
  let n := nat_of_ascii c in
  if (48 <=? n)%nat && (n <=? 57)%nat then Some (Z.of_nat (n - 48))
  else None.

(** The decimal fields of a position, separated by colons; [None] when a
    field is empty or holds something else than digits. *)
Fixpoint fields (s : string) (cur : option Z) : option (list Z) :=
  match s with
  | EmptyString => option_map (fun z => [z]) cur
  | String c s' =>
      if Ascii.eqb c ":"%char then
        match cur, fields s' None with
        | Some z, Some l => Some (z :: l)
        | _, _ => None
        end
      else
        match digit c with
        | Some d =>
            fields s'
              (Some (match cur with Some z => 10 * z + d | None => d end)%Z)
        | None => None
        end
  end.

(** Modelled from the spec: [timeToSecs] of [./utils], a module that is
    not among the sources.  The spec gives the [time] of an entry as a
    formatted position such as ["1:23"] and speaks of its numeric seconds
    equivalent: the fields are read in base sixty, so that ["0:10"] is
    [10] and ["1:23"] is [83]; a string that is no position has no
    seconds equivalent, [NaN]. *)
Definition timeToSecs (s : string) : num :=
  match fields s None with
  | Some l => JS.of_Z (fold_left (fun acc z => acc * 60 + z)%Z l 0%Z)
  | None => JS.NaN
  end.

End Utils.

(** ** More arithmetic on the numbers *)

Module JSArith.
Import JS.

(** [a + b]. *)
Definition add (a b : num) : num :=
  match a, b with
  | NaN, _ | _, NaN => NaN
  | Fin x, Fin y => Fin (x + y)
  | PosInf, NegInf | NegInf, PosInf => NaN
  | PosInf, _ | _, PosInf => PosInf
  | NegInf, _ | _, NegInf => NegInf
  end.

(** [a - b]. *)
Definition sub (a b : num) : num :=
  match a, b with
  | NaN, _ | _, NaN => NaN
  | Fin x, Fin y => Fin (x - y)
  | PosInf, PosInf | NegInf, NegInf => NaN
  | PosInf, _ | _, NegInf => PosInf
  | NegInf, _ | _, PosInf => NegInf
  end.

(** [Number.isNaN(a)]. *)
Definition isNaN (a : num) : bool :=
  match a with
  | NaN => true
  | _ => false
  end.

Definition of_int (z : Z) : Qc := Q2Qc (inject_Z z).

(** [Math.floor(a)]. *)
Definition floor (a : num) : num :=
  match a with
  | Fin q => Fin (of_int (Qfloor q))
  | other => other
  end.

(** The integer part of a rational, rounded towards zero. *)
Definition trunc (q : Qc) : Z :=
  if Qle_bool 0 q then Qfloor q else Qceiling q.

(** [a % b]: the remainder has the sign of [a], and is [a] itself when
    [b] is infinite. *)
Definition rem (a b : num) : num :=
  match a, b with
  | Fin x, Fin y =>
      if Qc_eqb y 0 then NaN else Fin (x - y * of_int (trunc (x / y)))
  | Fin _, (PosInf | NegInf) => a
  | _, _ => NaN
  end.

(** The decimal digits of an integer, with its sign. *)
Definition digits (z : Z) : string := NilZero.string_of_int (Z.to_int z).

(** The string of a number, as a template literal builds it.  For an
    integer below [2^53] in absolute value, which a double holds exactly
    and prints in full, these are its digits; the other finite numbers
    are left out ([None]). *)
Definition toString (a : num) : option string :=
  match a with
  | NaN => Some "NaN"%string
  | PosInf => Some "Infinity"%string
  | NegInf => Some "-Infinity"%string
  | Fin q =>
      if ((Qden q =? 1)%positive && (Z.abs (Qnum q) <? 2 ^ 53)%Z)%bool
      then Some (digits (Qnum q)) else None
  end.

(** The numbers on which the exact quotient and remainder by sixty have
    the whole part that the doubles of the source give: the numbers that
    are not finite, and the finite ones of a whole part below [2^53] in
    absolute value. *)
Definition wholePartExact (a : num) : bool :=
  match a with
  | Fin q => (Z.abs (Qfloor q) <? 2 ^ 53)%Z
  | _ => true
  end.

(** [s.padStart(n, c)] for a pad of one character. *)
Fixpoint pad (n : nat) (c : ascii) : string :=
  match n with
  | O => EmptyString
  | S n' => String c (pad n' c)
  end.

Definition padStart (n : nat) (c : ascii) (s : string) : string :=
  (pad (n - String.length s) c ++ s)%string.

End JSArith.

(** ** What the component renders *)

(** [formatTime]: the minutes, a colon, and the seconds on two digits
    at least.  A finite time of a whole part of [2^53] or more, where
    the quotient of the source is a rounded one, is left out ([None]). *)
Definition formatTime (t : num) : option string :=
  if JSArith.wholePartExact t then
    match JSArith.toString (JSArith.floor (JS.div t (JS.of_Z 60))),
          JSArith.toString (JSArith.floor (JSArith.rem t (JS.of_Z 60))) with
    | Some m, Some s =>
        Some (m ++ ":" ++ JSArith.padStart 2 "0"%char s)%string
    | _, _ => None
    end
  else None.

Section Views.

Variable timeToSecs : string -> num.

(** The events of a list reach the component one after the other, each
    with the page as it is when it arrives. *)
Fixpoint dispatchAll (p : Props) (evs : list (Dom * Event)) (c : Instance)
  : Instance * list Cmd :=
  match evs with
  | [] => (c, [])
  | (dom, ev) :: evs' =>
      let '(c1, k1) := dispatch timeToSecs p dom ev c in
      let '(c2, k2) := dispatchAll p evs' c1 in
      (c2, k1 ++ k2)
  end.

(** The time updates of a list of pages. *)
Definition timeUpdates (origin : string) (doms : list Dom)
  : list (Dom * Event) :=
  map (fun dom => (dom, TimeUpdate origin)) doms.

(** The icon of the mute button:
    [isMuted || volume === 0 ? 'volume_off' : 'volume_up']. *)
Definition volumeIcon (s : PlayerState) : string :=
  if isMuted s || JS.strict_eq (volume s) JS.zero
  then "volume_off"%string else "volume_up"%string.

(** The text of the [emptyVideo] branch. *)
Definition emptyMessage (p : Props) : string :=
  if isLoadingVideo p then "Processing video..."%string
  else if videoError p then "Error processing video."%string
  else "Drag and drop a video file here to get started."%string.

(** What the player shows: the stage with the video and its controls
    when [url && !isLoadingVideo], the message otherwise. *)
Inductive Screen : Type :=
| Stage
| Message (m : string).

Definition screen (p : Props) : Screen :=
  if showsVideo p then Stage else Message (emptyMessage p).

(** The position of the marker of an entry on the time line:
    [const pct = (secs / duration) * 100]. *)
Definition markerPct (t : Timecode) (s : PlayerState) : num :=
  JS.mul (JS.div (secs timeToSecs t) (duration s)) (JS.of_Z 100).

(** The style of a bounding box, in per cent of the stage, and its
    label. *)
Record BoxStyle : Type := mkBox {
  box_top : num;
  box_left : num;
  box_height : num;
  box_width : num;
  box_label : string
}.

(** The callback of [currentData?.objects?.map]: [null] for an object
    without [box_2d].  The percentages are the exact products and
    differences; the source rounds each of them. *)
Definition boundingBox (obj : DetectedObject) : option BoxStyle :=
  match box_2d obj with
  | None => None
  | Some (ymin, xmin, ymax, xmax) =>
      Some {| box_top := JS.mul ymin (JS.of_Z 100);
              box_left := JS.mul xmin (JS.of_Z 100);
              box_height := JS.mul (JSArith.sub ymax ymin) (JS.of_Z 100);
              box_width := JS.mul (JSArith.sub xmax xmin) (JS.of_Z 100);
              box_label := obj_name obj |}
  end.

(** [currentData?.objects?.map(...)]: nothing without an annotation or
    without [objects]. *)
Definition boundingBoxes (d : option Timecode) : list (option BoxStyle) :=
  match d with
  | Some t =>
      match objects t with
      | Some l => map boundingBox l
      | None => []
      end
  | None => []
  end.

(** The boxes that reach the page: React renders nothing for [null]. *)
Fixpoint renderedBoxes (l : list (option BoxStyle)) : list BoxStyle :=
  match l with
  | [] => []
  | Some b :: l' => b :: renderedBoxes l'
  | None :: l' => renderedBoxes l'
  end.

End Views.

(** ** More of the host *)

(** [text.replaceAll("\\'", "'")]: every backslash followed by an
    apostrophe, from left to right and without overlap, becomes an
    apostrophe. *)
Fixpoint unescapeApostrophes (s : string) : string :=
  match s with
  | String b (String q rest as tail) =>
      if Ascii.eqb b "\"%char && Ascii.eqb q "'"%char
      then String "'"%char (unescapeApostrophes rest)
      else String b (unescapeApostrophes tail)
  | other => other
  end.

(** The characters of a string that are no backslash. *)
Fixpoint withoutBackslashes (s : string) : string :=
  match s with
  | EmptyString => EmptyString
  | String c s' =>
      if Ascii.eqb c "\"%char then withoutBackslashes s'
      else String c (withoutBackslashes s')
  end.

(** The callback of the [map] of [setTimecodes]:
    [{...t, text: t.text.replaceAll(...)}].  Reading [replaceAll] off a
    [text] that is missing throws; that is [None]. *)
Definition cleanEntry (t : Timecode) : option Timecode :=
  match text t with
  | Some x =>
      Some {| time := time t; text := Some (unescapeApostrophes x);
              value := value t; objects := objects t |}
  | None => None
  end.

(** [timecodes.map(...)], which throws as soon as the callback does. *)
Fixpoint cleanEntries (l : list Timecode) : option (list Timecode) :=
  match l with
  | [] => Some []
  | t :: l' =>
      match cleanEntry t with
      | Some t' =>
          match cleanEntries l' with
          | Some r => Some (t' :: r)
          | None => None
          end
      | None => None
      end
  end.

Definition setTimecodeList (l : list Timecode) (a : App) : App :=
  {| vidUrl := vidUrl a;
     app_timecodeList := Some l;
     app_seekOperation := app_seekOperation a;
     app_isLoadingVideo := app_isLoadingVideo a;
     app_videoError := app_videoError a;
     nextRef := nextRef a |}.

(** [setTimecodes = ({timecodes}) => setTimecodeList(timecodes.map(...))];
    [None] when the [map] throws, in which case no state is set. *)
Definition setTimecodes (timecodes : list Timecode) (a : App) : option App :=
  match cleanEntries timecodes with
  | Some l => Some (setTimecodeList l a)
  | None => None
  end.

(** [uploadVideo] for a drop that carries no file:
    [setIsLoadingVideo(true)] has run when [URL.createObjectURL] throws
    on [files[0]], which is [undefined]. *)
Definition uploadVideo_no_file (a : App) : App :=
  {| vidUrl := vidUrl a;
     app_timecodeList := app_timecodeList a;
     app_seekOperation := app_seekOperation a;
     app_isLoadingVideo := true;
     app_videoError := app_videoError a;
     nextRef := nextRef a |}.

(** A run of the host as far as the player sees it.  The index counts
    the calls of [uploadVideo] that are waiting for [uploadFile]; the url
    [URL.createObjectURL] returns is not empty. *)
Inductive hostRun : nat -> App -> Prop :=
| run_start : hostRun 0 initialApp
| run_drop (n : nat) (a : App) (u : string) :
    hostRun n a -> u <> EmptyString ->
    hostRun (S n) (uploadVideo_begin u a)
| run_drop_no_file (n : nat) (a : App) :
    hostRun n a -> hostRun n (uploadVideo_no_file a)
| run_uploaded (n : nat) (a : App) :
    hostRun (S n) a -> hostRun n (uploadVideo_done a)
| run_upload_failed (n : nat) (a : App) :
    hostRun (S n) a -> hostRun n (uploadVideo_failed a)
| run_jump (n : nat) (a : App) (now : Z) (t : num) :
    hostRun n a -> hostRun n (jumpToTimecode now t a)
| run_timecodes (n : nat) (a : App) (l : list Timecode) :
    hostRun n a -> hostRun n (setTimecodeList l a).

(** ** Scenarios

    The inputs the examples below run the component on: the list of the
    spec, [[0:05, 0:10, 0:20]], for a media of sixty seconds. *)
Module Scenario.

Definition entry (t : string) : Timecode :=
  {| time := t; text := None; value := None; objects := None |}.

Definition list3 : list Timecode :=
  [entry "0:05"; entry "0:10"; entry "0:20"]%string.

Definition props3 : Props :=
  {| url := Some "a.mp4"%string; timecodeList := Some list3;
     seekOperation := None; isLoadingVideo := false; videoError := false |}.

(** The same props once the host has dropped the list. *)
Definition props_no_list : Props :=
  {| url := Some "a.mp4"%string; timecodeList := None;
     seekOperation := None; isLoadingVideo := false; videoError := false |}.

(** The same props with another url. *)
Definition props_b : Props :=
  {| url := Some "b.mp4"%string; timecodeList := Some list3;
     seekOperation := None; isLoadingVideo := false; videoError := false |}.

(** The page when the element is at second [t] of sixty. *)
Definition at_time (t : Z) : Dom :=
  {| el_currentTime := JS.of_Z t; el_duration := JS.of_Z 60;
     fullscreenElement := false |}.

(** The page before the metadata has loaded: no duration yet. *)
Definition before_metadata : Dom :=
  {| el_currentTime := JS.zero; el_duration := JS.NaN;
     fullscreenElement := false |}.

(** The page for a media of duration [0]. *)
Definition empty_media : Dom :=
  {| el_currentTime := JS.zero; el_duration := JS.zero;
     fullscreenElement := false |}.

Definition half : num := JS.of_Q (1 # 2).

(** The state of a player that has its element. *)
Definition attached : PlayerState := setVideo (Some 0%nat) initialState.

(** The player after its first render with [props3], and after the
    [durationchange] event of its element. *)
Definition mounted : Instance := fst (render props3 unmounted).

Definition loaded : Instance :=
  fst (dispatch Utils.timeToSecs props3 (at_time 12)
         (DurationChange "a.mp4") mounted).

(** The player once its element has reported that it plays and has
    reached second [12]. *)
Definition playing : Instance :=
  fst (dispatch Utils.timeToSecs props3 (at_time 12) (TimeUpdate "a.mp4")
         (fst (dispatch Utils.timeToSecs props3 (at_time 12)
                 (MediaPlay "a.mp4") loaded))).

(** The player with the volume set to [0.4]. *)
Definition quiet : Instance :=
  fst (dispatch Utils.timeToSecs props3 (at_time 12)
         (VolumeChange (JS.of_Q (2 # 5))) loaded).

(** The host after a first video has been uploaded, and the player it
    renders. *)
Definition app_a : App :=
  uploadVideo_done (uploadVideo_begin "a.mp4" initialApp).

Definition player_a : Instance :=
  fst (render (playerProps app_a)
         (fst (render (playerProps (uploadVideo_begin "a.mp4" initialApp))
                 (fst (render (playerProps initialApp) unmounted))))).

(** The scrub control of the player itself, [<input type="range">], and
    an element one can type into, [<div contenteditable>]. *)
Definition range_input : Element :=
  {| tagName := "INPUT"; inputType := "range"; isContentEditable := false |}.

Definition editable_div : Element :=
  {| tagName := "DIV"; inputType := ""; isContentEditable := true |}.

Definition plain_div : Element :=
  {| tagName := "DIV"; inputType := ""; isContentEditable := false |}.

Definition space_on (e : Element) : KeyEvent :=
  {| target := e; key := " " |}.

End Scenario.

(** Further inputs: an annotation with objects, texts to clean, and the
    host with the list of the spec. *)
Module MoreScenarios.

Definition tenth (n : Z) : Qc := Q2Qc (n # 10).

(** An object with a box from [(0.1, 0.2)] to [(0.5, 0.6)], and one
    without a box. *)
Definition boxed : DetectedObject :=
  {| obj_name := "cat";
     box_2d := Some (JS.Fin (tenth 1), JS.Fin (tenth 2), JS.Fin (tenth 5),
                     JS.Fin (tenth 6)) |}.

Definition unboxed : DetectedObject :=
  {| obj_name := "dog"; box_2d := None |}.

Definition seen : Timecode :=
  {| time := "0:10"; text := Some "a cat"%string; value := None;
     objects := Some [unboxed; boxed] |}.

(** An entry as the model writes it, with an apostrophe behind a
    backslash. *)
Definition quoted : Timecode :=
  {| time := "0:05"; text := Some "it\'s here"%string; value := None;
     objects := None |}.

(** The host holding the list of the spec, and its player. *)
Definition app_list : App := setTimecodeList Scenario.list3 Scenario.app_a.

Definition player_list : Instance :=
  fst (render (playerProps app_list) Scenario.player_a).

(** A host whose first upload has failed. *)
Definition app_failed : App :=
  uploadVideo_failed (uploadVideo_begin "a.mp4" initialApp).

(** The player before any video has been dropped. *)
Definition player_empty : Instance :=
  fst (render (playerProps initialApp) unmounted).

(** The player of the scenario after two clicks on the speed button, a
    change of url and a third click. *)
Definition cycled : Instance :=
  fst (dispatch Utils.timeToSecs Scenario.props_b (Scenario.at_time 12)
         SpeedClick
         (fst (render Scenario.props_b
                 (fst (dispatch Utils.timeToSecs Scenario.props3
                         (Scenario.at_time 12) SpeedClick
                         (fst (dispatch Utils.timeToSecs Scenario.props3
                                 (Scenario.at_time 12) SpeedClick
                                 Scenario.loaded))))))).

(** The host after a jump to second [30], and its player with the
    volume at [0.4], muted, and the rate at [1.5]. *)
Definition app_jumped : App :=
  jumpToTimecode 100 (JS.of_Z 30) Scenario.app_a.

Definition player_tuned : Instance :=
  fst (dispatch Utils.timeToSecs (playerProps app_jumped)
         (Scenario.at_time 30) SpeedClick
         (fst (dispatch Utils.timeToSecs (playerProps app_jumped)
                 (Scenario.at_time 30) MuteClick
                 (fst (dispatch Utils.timeToSecs (playerProps app_jumped)
                         (Scenario.at_time 30)
                         (VolumeChange (JS.of_Q (2 # 5)))
                         (fst (render (playerProps app_jumped)
                                 Scenario.player_a))))))).

End MoreScenarios.

(** ** Properties of the numbers *)

Module JSFacts.
Import JS.

Lemma Qc_leb_le (a b : Qc) : Qc_leb a b = true <-> (a <= b)%Qc.
Proof. unfold Qc_leb, Qcle. apply Qle_bool_iff. Qed.

Lemma Qc_eqb_eq (a b : Qc) : Qc_eqb a b = true <-> a = b.
Proof.
  unfold Qc_eqb. rewrite Qeq_bool_iff. split.
  - apply Qc_is_canon.
  - intros ->. reflexivity.
Qed.

Lemma Qc_ltb_lt (a b : Qc) : Qc_ltb a b = true <-> (a < b)%Qc.
Proof.
  unfold Qc_ltb, Qclt. rewrite negb_true_iff, <- not_true_iff_false.
  rewrite Qle_bool_iff. split.
  - apply Qnot_le_lt.
  - apply Qlt_not_le.
Qed.

Lemma le_trans (a b c : num) :
  le a b = true -> le b c = true -> le a c = true.
Proof.
  destruct a, b, c; simpl; try congruence.
  rewrite !Qc_leb_le. apply Qcle_trans.
Qed.

Lemma le_refl_of_le (a b : num) : le a b = true -> le a a = true.
Proof.
  destruct a, b; simpl; try congruence; intros _;
    apply Qc_leb_le, Qcle_refl.
Qed.

Lemma lt_not_le (a b : num) : lt a b = true -> le b a = false.
Proof.
  destruct a, b; simpl; try congruence.
  unfold Qc_ltb, Qc_leb. now rewrite negb_true_iff.
Qed.

Lemma strict_eq_eq (a b : num) : strict_eq a b = true -> a = b.
Proof.
  destruct a, b; simpl; try congruence.
  intros H. apply Qc_eqb_eq in H. now subst.
Qed.

End JSFacts.

(** ** The annotation index *)

Section AnnotationIndex.

Variable timeToSecs : string -> num.

Lemma find_rev_last (A : Type) (f : A -> bool) (l : list A) :
  match find f (rev l) with
  | Some e =>
      exists l1 l2,
        l = l1 ++ e :: l2 /\ f e = true /\ forall x, In x l2 -> f x = false
  | None => forall x, In x l -> f x = false
  end.
Proof.
  induction l as [|a l IH] using rev_ind.
  - simpl. intros x [].
  - rewrite rev_app_distr. simpl. destruct (f a) eqn:Fa.
    + exists l, []. repeat split; auto. intros x [].
    + destruct (find f (rev l)) as [e|].
      * destruct IH as (l1 & l2 & -> & Fe & Hl2).
        exists l1, (l2 ++ [a]). rewrite <- app_assoc. repeat split; auto.
        intros x Hx. apply in_app_or in Hx. destruct Hx as [Hx|[<-|[]]]; auto.
      * intros x Hx. apply in_app_or in Hx. destruct Hx as [Hx|[<-|[]]]; auto.
  Qed.

Lemma ascending_before (l1 l2 : list Timecode) (e : Timecode) :
  ascending timeToSecs (l1 ++ e :: l2) ->
  forall x, In x l1 -> JS.le (secs timeToSecs x) (secs timeToSecs e) = true.
Proof.
  intros S. apply Sorted_StronglySorted in S.
  2:{ intros a b c. apply JSFacts.le_trans. }
  induction l1 as [|a l1 IH]; simpl; intros x Hx; [destruct Hx|].
  inversion S as [|? ? S' F]; subst. destruct Hx as [<-|Hx].
  - rewrite Forall_forall in F. apply F, in_or_app. right. now left.
  - now apply IH.
Qed.

Lemma ascending_first (e0 : Timecode) (l : list Timecode) :
  ascending timeToSecs (e0 :: l) ->
  forall x, In x l -> JS.le (secs timeToSecs e0) (secs timeToSecs x) = true.
Proof.
  intros S. apply Sorted_StronglySorted in S.
  2:{ intros a b c. apply JSFacts.le_trans. }
  inversion S as [|? ? _ F]; subst. now rewrite Forall_forall in F.
Qed.

(** What [updateTime] stores in [currentData] when the player has its
    element and a list. *)
Lemma updateTime_currentData (p : Props) (dom : Dom) (s : PlayerState)
  (l : list Timecode) (v : nat) :
  timecodeList p = Some l ->
  video s = Some v ->
  currentData (stateOf (updateTime timeToSecs p dom s))
  = findAnnotation timeToSecs (rev l) (el_currentTime dom).
Proof.
  intros Hl Hv. unfold updateTime, timecodeListReversed.
  rewrite Hl, Hv. simpl.
  destruct (negb (isScrubbing s)); destruct (rev l); reflexivity.
Qed.

(** C1.  On a time update, with a timecode list in ascending order of
    seconds, the annotation selected is an entry of the list whose time is
    at most [currentTime] and at least the time of every other such entry;
    none is selected exactly when no entry has a time at most
    [currentTime], which is the case when [currentTime] is before the time
    of the first entry. *)
Theorem updateTime_selects_greatest (p : Props) (dom : Dom)
  (s : PlayerState) (l : list Timecode) (v : nat) :
  timecodeList p = Some l ->
  video s = Some v ->
  ascending timeToSecs l ->
  let currentTime := el_currentTime dom in
  let selected := currentData (stateOf (updateTime timeToSecs p dom s)) in
  match selected with
  | Some e =>
      In e l /\ JS.le (secs timeToSecs e) currentTime = true /\
      forall e', In e' l -> JS.le (secs timeToSecs e') currentTime = true ->
                 JS.le (secs timeToSecs e') (secs timeToSecs e) = true
  | None => forall e', In e' l -> JS.le (secs timeToSecs e') currentTime = false
  end
  /\ (forall e0 l', l = e0 :: l' ->
        JS.lt currentTime (secs timeToSecs e0) = true -> selected = None).
Proof.
  intros Hl Hv Hs currentTime selected.
  assert (E : selected = findAnnotation timeToSecs (rev l) currentTime)
    by (eapply updateTime_currentData; eauto).
  pose proof (find_rev_last
                (fun t => JS.le (timeToSecs (time t)) currentTime) l) as F.
  unfold findAnnotation in E. rewrite <- E in F. split.
  - destruct selected as [e|]; [|exact F].
    destruct F as (l1 & l2 & -> & Fe & Hl2). split; [|split]; auto.
    + apply in_or_app. right. now left.
    + intros e' He' Le'. apply in_app_or in He'.
      destruct He' as [H1|[<-|H2]].
      * eapply ascending_before; eauto.
      * eapply JSFacts.le_refl_of_le; eauto.
      * unfold secs in Le'. rewrite (Hl2 _ H2) in Le'. discriminate.
  - intros e0 l' -> Hlt. destruct selected as [e|]; [|reflexivity].
    destruct F as (l1 & l2 & El & Fe & _).
    assert (He : In e (e0 :: l'))
      by (rewrite El; apply in_or_app; right; now left).
    assert (L0 : JS.le (secs timeToSecs e0) (secs timeToSecs e) = true).
    { destruct He as [<-|He].
      - eapply JSFacts.le_refl_of_le; eauto.
      - eapply ascending_first; eauto. }
    pose proof (JSFacts.le_trans _ _ _ L0 Fe) as L.
    rewrite (JSFacts.lt_not_le _ _ Hlt) in L. discriminate.
Qed.

End AnnotationIndex.

Lemma list3_ascending : ascending Utils.timeToSecs Scenario.list3.
Proof. repeat constructor. Qed.

Example select_at_12 :
  currentData (stateOf (updateTime Utils.timeToSecs Scenario.props3
                          (Scenario.at_time 12) Scenario.attached))
  = Some (Scenario.entry "0:10").
Proof. reflexivity. Qed.

Example select_at_3 :
  currentData (stateOf (updateTime Utils.timeToSecs Scenario.props3
                          (Scenario.at_time 3) Scenario.attached))
  = None.
Proof. reflexivity. Qed.

Lemma updateTime_selects_greatest_witness :
  match currentData (stateOf (updateTime Utils.timeToSecs Scenario.props3
                                (Scenario.at_time 12) Scenario.attached))
  with
  | Some e =>
      In e Scenario.list3 /\
      JS.le (secs Utils.timeToSecs e) (JS.of_Z 12) = true /\
      forall e', In e' Scenario.list3 ->
                 JS.le (secs Utils.timeToSecs e') (JS.of_Z 12) = true ->
                 JS.le (secs Utils.timeToSecs e') (secs Utils.timeToSecs e)
                 = true
  | None =>
      forall e', In e' Scenario.list3 ->
                 JS.le (secs Utils.timeToSecs e') (JS.of_Z 12) = false
  end.
Proof.
  refine (proj1 (@updateTime_selects_greatest Utils.timeToSecs
                   Scenario.props3 (Scenario.at_time 12) Scenario.attached
                   Scenario.list3 0%nat _ _ _)).
  - reflexivity.
  - reflexivity.
  - repeat constructor.
Defined.

(** ** Rate cycling *)

Lemma indexOf_from_absent (l : list num) (x : num) (i : Z) :
  (forall y, In y l -> JS.strict_eq y x = false) ->
  indexOf_from i l x = (-1)%Z.
Proof.
  revert i. induction l as [|y l IH]; simpl; intros i H; [reflexivity|].
  rewrite (H y) by now left. apply IH. intros z Hz. apply H. now right.
Qed.

Lemma indexOf_absent (x : num) :
  ~ In x rates -> indexOf rates x = (-1)%Z.
Proof.
  intros N. apply indexOf_from_absent. intros y Hy.
  destruct (JS.strict_eq y x) eqn:E; [|reflexivity].
  apply JSFacts.strict_eq_eq in E. subst. contradiction.
Qed.

Lemma indexOf_from_range (l : list num) (x : num) (i : Z) :
  (indexOf_from i l x = -1 \/
   i <= indexOf_from i l x < i + Z.of_nat (List.length l))%Z.
Proof.
  revert i. induction l as [|y l IH]; intros i; [now left|].
  cbn [indexOf_from List.length]. destruct (JS.strict_eq y x).
  - right. lia.
  - destruct (IH (i + 1)%Z) as [H|H]; [now left|right; lia].
Qed.

(** The index [cyclePlaybackRate] reads [rates] at is one of the array. *)
Lemma nextIndex_range (r : num) : (0 <= nextIndex r < 4)%Z.
Proof.
  unfold nextIndex, indexOf.
  change (Z.of_nat (List.length rates)) with 4%Z.
  destruct (indexOf_from_range rates r 0) as [H|H].
  - rewrite H. change (Z.rem (-1 + 1) 4) with 0%Z. lia.
  - change (Z.of_nat (List.length rates)) with 4%Z in H.
    pose proof (Z.rem_bound_pos (indexOf_from 0 rates r + 1) 4). lia.
Qed.

(** C7.  [cyclePlaybackRate] walks [[0.5, 1, 1.5, 2]] in a circle: from
    [1] it gives [1.5], then [2], then [0.5], then [1]; from a rate of the
    set it moves to the rate at the next index modulo four, so that four
    applications give the rate back; from a rate that is not in the set
    [indexOf] is [-1] and the next rate is the one at index [0], [0.5]. *)
Theorem cyclePlaybackRate_circular (s : PlayerState) :
  let rate (s : PlayerState) := playbackRate s in
  let cycle := cyclePlaybackRate in
  (rate s = JS.of_Z 1 ->
   rate (cycle s) = JS.of_Q (3 # 2)
   /\ rate (cycle (cycle s)) = JS.of_Z 2
   /\ rate (cycle (cycle (cycle s))) = JS.of_Q (1 # 2)
   /\ rate (cycle (cycle (cycle (cycle s)))) = JS.of_Z 1)
  /\ (In (rate s) rates ->
      indexOf rates (rate (cycle s)) = ((indexOf rates (rate s) + 1) mod 4)%Z
      /\ rate (cycle (cycle (cycle (cycle s)))) = rate s)
  /\ (~ In (rate s) rates ->
      indexOf rates (rate s) = (-1)%Z
      /\ nextIndex (rate s) = 0%Z
      /\ rate (cycle s) = JS.of_Q (1 # 2)).
Proof.
  intros rate cycle. subst rate cycle.
  destruct s as [v d t pl sc cd vo mu r fs].
  unfold cyclePlaybackRate. cbn [playbackRate setPlaybackRate].
  split; [|split].
  - intros ->. repeat split; reflexivity.
  - intros H. simpl in H.
    destruct H as [<-|[<-|[<-|[<-|[]]]]]; split; reflexivity.
  - intros N. pose proof (indexOf_absent N) as E.
    unfold nextRate, nextIndex. rewrite E. repeat split; reflexivity.
Qed.

Lemma cyclePlaybackRate_circular_witness :
  playbackRate (cyclePlaybackRate initialState) = JS.of_Q (3 # 2)
  /\ playbackRate (cyclePlaybackRate (cyclePlaybackRate initialState))
     = JS.of_Z 2
  /\ playbackRate
       (cyclePlaybackRate (cyclePlaybackRate (cyclePlaybackRate initialState)))
     = JS.of_Q (1 # 2)
  /\ playbackRate
       (cyclePlaybackRate
          (cyclePlaybackRate
             (cyclePlaybackRate (cyclePlaybackRate initialState))))
     = JS.of_Z 1.
Proof.
  apply (proj1 (cyclePlaybackRate_circular initialState)). reflexivity.
Defined.

(** ** Renders *)

Lemma same_option_refl (A : Type) (eqb : A -> A -> bool) (a : option A) :
  (forall x, eqb x x = true) -> same_option eqb a a = true.
Proof. intros H. destruct a; simpl; auto. Qed.

Lemma same_value_refl (a : num) : JS.same_value a a = true.
Proof.
  destruct a; simpl; auto. apply JSFacts.Qc_eqb_eq. reflexivity.
Qed.

Lemma same_url_refl (d : Deps) : same_url d d = true.
Proof. apply same_option_refl, String.eqb_refl. Qed.

Lemma same_video_refl (d : Deps) : same_video d d = true.
Proof. apply same_option_refl, Nat.eqb_refl. Qed.

Lemma same_seek_refl (d : Deps) : same_seek d d = true.
Proof. apply same_option_refl, Nat.eqb_refl. Qed.

Ltac same_deps :=
  rewrite ?same_url_refl, ?same_video_refl, ?same_seek_refl,
    ?same_value_refl, ?Bool.eqb_reflx.

(** Rendering again with the props and the state of the last render does
    nothing: no effect runs and the page is left alone. *)
Lemma commit_settled (p : Props) (c : Instance) :
  settled p c -> commit p c = (c, []).
Proof.
  destruct c as [s d el n]. unfold settled. simpl. intros [-> Hs].
  unfold commit. simpl. rewrite Hs. unfold runs.
  same_deps. simpl. destruct el; reflexivity.
Qed.

Lemma render_settled (p : Props) (c : Instance) :
  settled p c -> render p c = (c, []).
Proof.
  intros H. unfold render. rewrite (commit_settled H).
  rewrite (commit_settled H). reflexivity.
Qed.

(** After a commit the page has the element exactly when the props show
    it, and the dependencies recorded are those the commit ran with. *)
Lemma commit_page (p : Props) (c : Instance) :
  showsVideo p
  = match element (fst (commit p c)) with Some _ => true | None => false end.
Proof.
  unfold commit. destruct (showsVideo p), (element c); reflexivity.
Qed.

Lemma commit_lastDeps (p : Props) (c : Instance) :
  lastDeps (fst (commit p c)) = Some (depsOf p (state c)).
Proof.
  unfold commit. destruct (showsVideo p), (element c); reflexivity.
Qed.

(** The commit of the re-render sets no state. *)
Lemma commit_twice_state (p : Props) (c : Instance) :
  state (fst (commit p (fst (commit p c)))) = state (fst (commit p c)).
Proof.
  pose proof (commit_page p c) as P. pose proof (commit_lastDeps p c) as D.
  destruct (fst (commit p c)) as [s1 d1 el1 n1]. simpl in *. subst d1.
  unfold commit. simpl. rewrite P.
  replace (same_url (depsOf p (state c)) (depsOf p s1)) with true
    by (symmetry; apply same_option_refl, String.eqb_refl).
  destruct el1; reflexivity.
Qed.

Lemma render_state (p : Props) (c : Instance) :
  state (fst (render p c)) = state (fst (commit p c)).
Proof.
  unfold render. pose proof (commit_twice_state p c) as H.
  destruct (commit p c) as [c1 k1]. simpl in *.
  destruct (commit p c1) as [c2 k2]. exact H.
Qed.

(** A render leaves the instance settled: a further one does nothing. *)
Lemma render_settles (p : Props) (c : Instance) :
  settled p (fst (render p c)).
Proof.
  unfold render.
  pose proof (commit_twice_state p c) as S.
  destruct (commit p c) as [c1 k1]. simpl in S.
  pose proof (commit_page p c1) as P. pose proof (commit_lastDeps p c1) as D.
  destruct (commit p c1) as [c2 k2]. simpl in *.
  split; [rewrite D, S; reflexivity | exact P].
Qed.

(** The render that follows a handler, which sets any state but [video]:
    the state stays as the handler set it, and the volume and the rate
    are written to the element when the handler changed them. *)
Lemma render_after_handler (p : Props) (c : Instance) (s : PlayerState) :
  settled p c ->
  video s = video (state c) ->
  render p (withState s c)
  = ({| state := s; lastDeps := Some (depsOf p s); element := element c;
        nextElement := nextElement c |},
     (if JS.same_value (volume (state c)) (volume s)
         && Bool.eqb (isMuted (state c)) (isMuted s)
      then [] else volumeEffect s)
     ++ (if JS.same_value (playbackRate (state c)) (playbackRate s)
         then [] else rateEffect s)).
Proof.
  intros [D P] V. destruct c as [s0 d el n]. simpl in *. subst d.
  assert (C1 : commit p (withState s (mkInstance s0
                                        (Some (depsOf p s0)) el n))
               = ({| state := s; lastDeps := Some (depsOf p s);
                     element := el; nextElement := n |},
                  (if JS.same_value (volume s0) (volume s)
                      && Bool.eqb (isMuted s0) (isMuted s)
                   then [] else volumeEffect s)
                  ++ (if JS.same_value (playbackRate s0) (playbackRate s)
                      then [] else rateEffect s))).
  { unfold commit, withState. simpl. rewrite P. unfold runs.
    unfold same_url, same_video, same_seek. simpl. rewrite V.
    rewrite !same_option_refl
      by (first [apply String.eqb_refl | apply Nat.eqb_refl]).
    simpl.
    destruct (JS.same_value (volume s0) (volume s)
              && Bool.eqb (isMuted s0) (isMuted s));
      destruct (JS.same_value (playbackRate s0) (playbackRate s));
      destruct el; reflexivity. }
  unfold render. rewrite C1.
  rewrite commit_settled by (split; [reflexivity | exact P]).
  now rewrite app_nil_r.
Qed.

(** ** Events on a settled component *)

Section Dispatch.

Variable timeToSecs : string -> num.

(** No handler sets [video]: only the ref callback does. *)
Lemma handle_video (p : Props) (dom : Dom) (ev : Event) (s : PlayerState) :
  video (stateOf (handle timeToSecs p dom ev s)) = video s.
Proof.
  destruct ev; simpl; try reflexivity;
    unfold togglePlay, updateDuration, updateTime, scrubChange, onKeyPress,
      togglePlay, timecodeListReversed.
  4:{ destruct (isScrubbing s), (video s) eqn:V, (timecodeList p) as [l|];
        simpl; try destruct (rev l); simpl; rewrite ?V; auto. }
  all: repeat match goal with
         | |- context [match ?x with _ => _ end] => destruct x eqn:?; simpl
         end; congruence.
Qed.

(** What an event does to a settled component: the state is the one its
    handler sets, and the commands are those of the handler followed by
    the writes of the volume and of the rate that the handler changed. *)
Lemma dispatch_settled (p : Props) (dom : Dom) (ev : Event) (c : Instance) :
  settled p c ->
  let o := handle timeToSecs p dom ev (state c) in
  dispatch timeToSecs p dom ev c
  = ({| state := stateOf o; lastDeps := Some (depsOf p (stateOf o));
        element := element c; nextElement := nextElement c |},
     commandsOf o
     ++ (if JS.same_value (volume (state c)) (volume (stateOf o))
            && Bool.eqb (isMuted (state c)) (isMuted (stateOf o))
         then [] else volumeEffect (stateOf o))
     ++ (if JS.same_value (playbackRate (state c)) (playbackRate (stateOf o))
         then [] else rateEffect (stateOf o))).
Proof.
  intros S o. unfold dispatch. fold o.
  rewrite (render_after_handler (stateOf o) S) by apply handle_video.
  reflexivity.
Qed.

(** An event leaves a settled component settled. *)
Lemma dispatch_settles (p : Props) (dom : Dom) (ev : Event) (c : Instance) :
  settled p c -> settled p (fst (dispatch timeToSecs p dom ev c)).
Proof.
  intros S. pose proof S as [_ P]. rewrite (dispatch_settled dom ev S).
  split; [reflexivity | exact P].
Qed.

(** *** Scrubbing *)

(** C2, as the code has it.  While [isScrubbing] is true a time update
    leaves the scrub fraction as it is.  The pointer going down sets
    [isScrubbing]; every move of the drag sets the fraction to the value
    of the control and issues one seek, to that value times the duration;
    the pointer going up clears [isScrubbing] and issues nothing. *)
Theorem scrub_drag (p : Props) (dom : Dom) (c : Instance) (el : nat)
  (v : num) (origin : string) :
  settled p c ->
  video (state c) = Some el ->
  let after (ev : Event) := dispatch timeToSecs p dom ev c in
  (isScrubbing (state c) = true ->
   scrubberTime (state (fst (after (TimeUpdate origin))))
   = scrubberTime (state c)
   /\ snd (after (TimeUpdate origin)) = [])
  /\ (isScrubbing (state (fst (after ScrubPointerDown))) = true
      /\ scrubberTime (state (fst (after ScrubPointerDown)))
         = scrubberTime (state c)
      /\ snd (after ScrubPointerDown) = [])
  /\ (scrubberTime (state (fst (after (ScrubChange v)))) = v
      /\ isScrubbing (state (fst (after (ScrubChange v))))
         = isScrubbing (state c)
      /\ snd (after (ScrubChange v))
         = [SetCurrentTime (JS.mul v (duration (state c)))])
  /\ (isScrubbing (state (fst (after ScrubPointerUp))) = false
      /\ scrubberTime (state (fst (after ScrubPointerUp)))
         = scrubberTime (state c)
      /\ snd (after ScrubPointerUp) = []).
Proof.
  intros S V after. subst after. cbv beta.
  rewrite !(dispatch_settled dom _ S). cbn [fst snd state].
  cbn [handle]. unfold scrubChange, scrubPointerDown, scrubPointerUp.
  rewrite V. cbn [stateOf commandsOf].
  cbn [setIsScrubbing setScrubberTime scrubberTime isScrubbing volume
         isMuted playbackRate].
  same_deps. cbn [andb app].
  split; [|repeat split; reflexivity].
  intros Sc. unfold updateTime, timecodeListReversed. rewrite Sc, V.
  cbn [negb]. destruct (timecodeList p) as [l|]; cbn [option_map].
  - destruct (rev l); cbn [stateOf commandsOf setCurrentData scrubberTime
                             volume isMuted playbackRate];
      same_deps; split; reflexivity.
  - cbn [stateOf commandsOf]. same_deps. split; reflexivity.
Qed.

End Dispatch.

(** ** Play, pause and mute *)

Section Playback.

Variable timeToSecs : string -> num.

(** Only the handlers of the [play] and [pause] events of the element set
    [isPlaying]. *)
Lemma handle_isPlaying (p : Props) (dom : Dom) (ev : Event)
  (s : PlayerState) :
  isPlaying (stateOf (handle timeToSecs p dom ev s)) <> isPlaying s ->
  exists origin, ev = MediaPlay origin \/ ev = MediaPause origin.
Proof.
  destruct ev; try (intros _; eexists; eauto; fail); intros H; exfalso;
    apply H; clear H; simpl;
    unfold togglePlay, updateDuration, updateTime, scrubChange, onKeyPress,
      togglePlay, timecodeListReversed.
  4:{ destruct (isScrubbing s), (video s), (timecodeList p) as [l|];
        simpl; try destruct (rev l); reflexivity. }
  all: repeat match goal with
         | |- context [match ?x with _ => _ end] => destruct x; simpl
         end; reflexivity.
Qed.

Lemma toggleMute_twice (s : PlayerState) : toggleMute (toggleMute s) = s.
Proof.
  destruct s. unfold toggleMute, setIsMuted. simpl.
  now rewrite negb_involutive.
Qed.

(** C8.  Muting writes the volume [0] to the element and keeps the stored
    volume; unmuting writes the stored volume back, and the state is the
    one before the mute. *)
Theorem mute_then_unmute (p : Props) (dom : Dom) (c : Instance) (el : nat) :
  settled p c ->
  video (state c) = Some el ->
  isMuted (state c) = false ->
  let muted := dispatch timeToSecs p dom MuteClick c in
  let unmuted := dispatch timeToSecs p dom MuteClick (fst muted) in
  (isMuted (state (fst muted)) = true
   /\ volume (state (fst muted)) = volume (state c)
   /\ effectiveVolume (state (fst muted)) = JS.zero
   /\ snd muted = [SetVolume JS.zero])
  /\ (isMuted (state (fst unmuted)) = false
      /\ volume (state (fst unmuted)) = volume (state c)
      /\ effectiveVolume (state (fst unmuted)) = volume (state c)
      /\ snd unmuted = [SetVolume (volume (state c))]
      /\ state (fst unmuted) = state c).
Proof.
  intros S V M muted unmuted.
  assert (S' : settled p (fst muted)) by now apply dispatch_settles.
  subst unmuted. rewrite (dispatch_settled timeToSecs dom _ S').
  subst muted. rewrite (dispatch_settled timeToSecs dom _ S).
  cbn [fst snd state handle stateOf commandsOf].
  rewrite toggleMute_twice.
  unfold volumeEffect, rateEffect, effectiveVolume, toggleMute.
  cbn [setIsMuted isMuted volume playbackRate video]. rewrite V, M.
  same_deps. cbn [negb andb Bool.eqb app]. repeat split; reflexivity.
Qed.

End Playback.

(** ** Seek requests *)

Lemma same_option_nat_neq (a : option nat) (b : nat) :
  match a with Some x => (x < b)%nat | None => True end ->
  same_option Nat.eqb a (Some b) = false.
Proof.
  destruct a as [x|]; simpl; [|reflexivity].
  intros H. apply Nat.eqb_neq. lia.
Qed.

(** A render with new props that show the same url and the same loading
    flag: the state is left alone, and the seek effect is the only one
    that can run; it runs when the [seekOperation] object is another one
    than at the last render. *)
Lemma render_new_props (p p' : Props) (c : Instance) :
  settled p c ->
  url p' = url p ->
  isLoadingVideo p' = isLoadingVideo p ->
  render p' c
  = ({| state := state c; lastDeps := Some (depsOf p' (state c));
        element := element c; nextElement := nextElement c |},
     if same_option Nat.eqb (option_map so_ref (seekOperation p))
          (option_map so_ref (seekOperation p'))
     then [] else seekEffect p' (state c)).
Proof.
  intros [D P] U L. destruct c as [s d el n]. simpl in *. subst d.
  assert (Sh : showsVideo p' = showsVideo p)
    by (unfold showsVideo; now rewrite U, L).
  assert (C1 : commit p' (mkInstance s (Some (depsOf p s)) el n)
               = ({| state := s; lastDeps := Some (depsOf p' s);
                     element := el; nextElement := n |},
                  if same_option Nat.eqb
                       (option_map so_ref (seekOperation p))
                       (option_map so_ref (seekOperation p'))
                  then [] else seekEffect p' s)).
  { unfold commit. simpl. rewrite Sh, P. unfold runs.
    unfold same_url, same_video, same_seek. simpl. rewrite U.
    rewrite !same_option_refl
      by (first [apply String.eqb_refl | apply Nat.eqb_refl]).
    same_deps. simpl.
    destruct (same_option Nat.eqb (option_map so_ref (seekOperation p))
                (option_map so_ref (seekOperation p')));
      destruct el; simpl; rewrite ?app_nil_r; reflexivity. }
  unfold render. rewrite C1.
  rewrite commit_settled by (split; [reflexivity | now rewrite Sh]).
  now rewrite app_nil_r.
Qed.


(** ** Change of url *)

Lemma same_option_string_neq (a b : option string) :
  a <> b -> same_option String.eqb a b = false.
Proof.
  destruct a as [x|], b as [y|]; simpl; try congruence.
  intros H. apply String.eqb_neq. congruence.
Qed.

(** What the first commit after a change of url leaves as state. *)
Lemma commit_url_changed (p : Props) (c : Instance) (d : Deps) :
  lastDeps c = Some d ->
  dep_url d <> url p ->
  exists v, state (fst (commit p c)) = resetOnUrl (setVideo v (state c)).
Proof.
  intros D U. destruct c as [s d' el n]. simpl in D. subst d'.
  unfold commit. cbn [state lastDeps element nextElement]. unfold runs.
  unfold same_url at 1. cbn [depsOf dep_url].
  rewrite (same_option_string_neq U). cbn [negb].
  destruct (showsVideo p), el; cbn [fst state]; eauto.
  - exists (video s). now destruct s.
  - exists (video s). now destruct s.
Qed.

Lemma commit_url_same (p p' : Props) (c : Instance) :
  settled p c ->
  url p' = url p ->
  exists v, state (fst (commit p' c)) = setVideo v (state c).
Proof.
  intros [D _] U. destruct c as [s d el n].
  cbn [state lastDeps] in D. subst d.
  unfold commit. cbn [state lastDeps element nextElement]. unfold runs.
  unfold same_url at 1. cbn [depsOf dep_url]. rewrite U.
  rewrite same_option_refl by apply String.eqb_refl. cbn [negb].
  destruct (showsVideo p'), el; cbn [fst state]; eauto;
    exists (video s); now destruct s.
Qed.

Section ClickToggles.

Variable timeToSecs : string -> num.

(** C10, as the code has it.  A click on the video runs the handler of
    the play button, [togglePlay]: it issues [pause] when [isPlaying] is
    true and [play] otherwise, and leaves [isPlaying] as it is.  Among
    the events, the [play] and [pause] events of the element set the
    flag, and the handler of no other event does.  Events are not all
    that sets it: a render with the same url leaves the flag alone, and
    the render that follows a change of url sets it to false. *)
Theorem video_click_toggles (p : Props) (dom : Dom) (c : Instance)
  (el : nat) :
  settled p c ->
  video (state c) = Some el ->
  let after (ev : Event) := dispatch timeToSecs p dom ev c in
  after VideoClick = after PlayButtonClick
  /\ snd (after VideoClick) = [if isPlaying (state c) then Pause else Play]
  /\ state (fst (after VideoClick)) = state c
  /\ (forall origin,
        isPlaying (state (fst (after (MediaPlay origin)))) = true
        /\ isPlaying (state (fst (after (MediaPause origin)))) = false)
  /\ (forall ev,
        isPlaying (state (fst (after ev))) <> isPlaying (state c) ->
        exists origin, ev = MediaPlay origin \/ ev = MediaPause origin)
  /\ (forall p',
        url p' = url p ->
        isPlaying (state (fst (render p' c))) = isPlaying (state c))
  /\ (forall p',
        url p' <> url p ->
        isPlaying (state (fst (render p' c))) = false).
Proof.
  intros St V after. subst after. cbv beta.
  split; [reflexivity|]. split; [|split; [|split; [|split; [|split]]]].
  - rewrite (dispatch_settled timeToSecs dom _ St). cbn [snd handle].
    unfold togglePlay. rewrite V. cbn [stateOf commandsOf].
    same_deps. reflexivity.
  - rewrite (dispatch_settled timeToSecs dom _ St). cbn [fst state handle].
    unfold togglePlay. rewrite V. reflexivity.
  - intros origin.
    rewrite !(dispatch_settled timeToSecs dom _ St). split; reflexivity.
  - intros ev. rewrite (dispatch_settled timeToSecs dom _ St).
    cbn [fst state]. apply handle_isPlaying.
  - intros p' U. rewrite render_state.
    destruct (commit_url_same p' St U) as [v E]. rewrite E. reflexivity.
  - intros p' U. rewrite render_state. destruct St as [D _].
    assert (U' : dep_url (depsOf p (state c)) <> url p')
      by (cbn [depsOf dep_url]; congruence).
    destruct (commit_url_changed p' c D U') as [v E]. rewrite E.
    reflexivity.
Qed.

End ClickToggles.

Section UrlChange.

Variable timeToSecs : string -> num.

(** C4, as the code has it.  In the render that follows a change of
    [url], the effect on [[url]] sets the scrub fraction to [0],
    [isPlaying] to false, the playback rate to [1] and the annotation to
    none; the duration, the volume, the mute flag, the scrubbing flag and
    the fullscreen flag are left as they were.  No handler looks at where
    an event comes from: a [play] event or a time update that arrives
    afterwards is applied whatever its origin. *)
Theorem url_change_resets (p : Props) (c : Instance) (d : Deps) :
  lastDeps c = Some d ->
  dep_url d <> url p ->
  let c' := fst (render p c) in
  (scrubberTime (state c') = JS.zero
   /\ isPlaying (state c') = false
   /\ playbackRate (state c') = JS.one
   /\ currentData (state c') = None)
  /\ (duration (state c') = duration (state c)
      /\ volume (state c') = volume (state c)
      /\ isMuted (state c') = isMuted (state c)
      /\ isScrubbing (state c') = isScrubbing (state c)
      /\ isFullscreen (state c') = isFullscreen (state c))
  /\ (forall dom origin,
        isPlaying (state (fst (dispatch timeToSecs p dom (MediaPlay origin)
                                 c'))) = true)
  /\ (forall dom origin el,
        video (state c') = Some el ->
        scrubberTime (state (fst (dispatch timeToSecs p dom
                                    (TimeUpdate origin) c')))
        = (if isScrubbing (state c) then JS.zero
           else JS.div (el_currentTime dom) (el_duration dom))).
Proof.
  intros D U c'.
  assert (S : settled p c') by apply render_settles.
  destruct (commit_url_changed p c D U) as [v E].
  assert (E' : state c' = resetOnUrl (setVideo v (state c))).
  { subst c'. now rewrite render_state. }
  split; [|split; [|split]].
  - rewrite E'. repeat split; reflexivity.
  - rewrite E'. repeat split; reflexivity.
  - intros dom origin. rewrite (dispatch_settled timeToSecs dom _ S).
    reflexivity.
  - intros dom origin el V. rewrite (dispatch_settled timeToSecs dom _ S).
    cbn [fst state handle]. unfold updateTime, timecodeListReversed.
    rewrite V.
    replace (isScrubbing (state c')) with (isScrubbing (state c))
      by (rewrite E'; reflexivity).
    assert (Z : scrubberTime (state c') = JS.zero)
      by (rewrite E'; reflexivity).
    destruct (isScrubbing (state c)); cbn [negb];
      destruct (timecodeList p) as [l|]; cbn [option_map];
      try destruct (rev l); cbn [stateOf]; try exact Z; reflexivity.
Qed.

End UrlChange.

(** ** The scrub fraction *)

Lemma Qc_eqb_neq (a b : Qc) : a <> b -> JS.Qc_eqb a b = false.
Proof.
  intros N. destruct (JS.Qc_eqb a b) eqn:E; [|reflexivity].
  apply JSFacts.Qc_eqb_eq in E. contradiction.
Qed.

Lemma Qc_fraction_range (t d : Qc) :
  (0 < d)%Qc -> (0 <= t)%Qc -> (t <= d)%Qc ->
  (0 <= t / d)%Qc /\ (t / d <= 1)%Qc.
Proof.
  intros Hd H0 H1.
  assert (N : d <> 0%Qc) by (intros ->; now apply (Qclt_not_eq _ _ Hd)).
  assert (E : (t / d * d)%Qc = t)
    by (rewrite Qcmult_comm; now apply Qcmult_div_r).
  split; apply (Qcmult_lt_0_le_reg_r _ _ d Hd); rewrite E.
  - now rewrite Qcmult_0_l.
  - now rewrite Qcmult_1_l.
Qed.

(** The quotient of a finite time between [0] and a positive duration. *)
Lemma div_range (t d : num) :
  JS.lt JS.zero d = true ->
  JS.le JS.zero t = true ->
  JS.le t d = true ->
  JS.lt t JS.PosInf = true ->
  JS.le JS.zero (JS.div t d) = true /\ JS.le (JS.div t d) JS.one = true.
Proof.
  destruct t as [t| | |], d as [d| | |]; simpl; try discriminate.
  - rewrite JSFacts.Qc_ltb_lt, !JSFacts.Qc_leb_le. intros Hd H0 H1 _.
    rewrite Qc_eqb_neq
      by (intros ->; now apply (Qclt_not_eq _ _ Hd)).
    simpl. rewrite !JSFacts.Qc_leb_le.
    now apply Qc_fraction_range.
  - intros _ _ _ _. split; reflexivity.
Qed.

Section ScrubFraction.

Variable timeToSecs : string -> num.

(** C5, as the code has it.  On a time update outside a drag the fraction
    stored is [video.currentTime / video.duration], unguarded.  With a
    positive duration and a finite current time between [0] and the
    duration it lies in [[0, 1]].  With a duration that is not known yet
    ([NaN]), or a duration and a current time that are both [0], it is
    [NaN]; the guard is at two places that read it: the value of the
    scrub control, [scrubberTime || 0], and [currentSecs], both [0]
    then. *)
Theorem scrub_fraction (p : Props) (dom : Dom) (s : PlayerState)
  (el : nat) :
  video s = Some el ->
  isScrubbing s = false ->
  let s' := stateOf (updateTime timeToSecs p dom s) in
  scrubberTime s' = JS.div (el_currentTime dom) (el_duration dom)
  /\ (JS.lt JS.zero (el_duration dom) = true ->
      JS.le JS.zero (el_currentTime dom) = true ->
      JS.le (el_currentTime dom) (el_duration dom) = true ->
      JS.lt (el_currentTime dom) JS.PosInf = true ->
      JS.le JS.zero (scrubberTime s') = true
      /\ JS.le (scrubberTime s') JS.one = true)
  /\ (el_duration dom = JS.NaN
      \/ (el_duration dom = JS.zero /\ el_currentTime dom = JS.zero) ->
      scrubberTime s' = JS.NaN
      /\ scrubberValue s' = JS.zero
      /\ currentSecs s' = JS.zero).
Proof.
  intros V Sc s'.
  assert (E : scrubberTime s'
              = JS.div (el_currentTime dom) (el_duration dom)).
  { subst s'. unfold updateTime, timecodeListReversed. rewrite V, Sc.
    cbn [negb]. destruct (timecodeList p) as [l|]; cbn [option_map];
      try destruct (rev l); reflexivity. }
  split; [exact E|]. split.
  - intros Hd H0 H1 Hf. rewrite E. now apply div_range.
  - intros H.
    assert (N : scrubberTime s' = JS.NaN).
    { rewrite E. destruct H as [->|[-> ->]].
      - now destruct (el_currentTime dom).
      - reflexivity. }
    unfold scrubberValue, currentSecs. rewrite N.
    repeat split. now destruct (duration s').
Qed.

End ScrubFraction.

(** ** The annotation is stored *)

Section Annotation.

Variable timeToSecs : string -> num.

(** C6, as the code has it.  The annotation is a [useState] cell that
    [updateTime] writes.  With a timecode list among the props, after a
    time update it is the entry the lookup finds in the reversed list at
    the current time, whatever was stored before; with no list among the
    props, [updateTime] leaves the cell as it is. *)
Theorem annotation_after_time_update (p : Props) (dom : Dom)
  (s : PlayerState) (el : nat) :
  video s = Some el ->
  let s' := stateOf (updateTime timeToSecs p dom s) in
  (forall l, timecodeList p = Some l ->
             currentData s'
             = findAnnotation timeToSecs (rev l) (el_currentTime dom))
  /\ (timecodeList p = None -> currentData s' = currentData s).
Proof.
  intros V s'. split.
  - intros l L. subst s'. eapply updateTime_currentData; eauto.
  - intros L. subst s'. unfold updateTime, timecodeListReversed.
    rewrite L, V. destruct (isScrubbing s); reflexivity.
Qed.

End Annotation.

(** ** The space bar *)

Lemma eqb_false_neq (a b : string) : negb (String.eqb a b) = true <-> a <> b.
Proof. rewrite negb_true_iff. apply String.eqb_neq. Qed.

(** C9, as the code has it.  A key press runs [togglePlay] exactly when
    the key is the space and the tag name of the target is neither
    [INPUT] nor [TEXTAREA]; nothing else about the target is looked at. *)
Theorem space_toggles_by_tag_name (e : KeyEvent) (s : PlayerState) :
  (keyTogglesPlay e = true <->
   key e = " "%string
   /\ tagName (target e) <> "INPUT"%string
   /\ tagName (target e) <> "TEXTAREA"%string)
  /\ (keyTogglesPlay e = true -> onKeyPress e s = togglePlay s)
  /\ (keyTogglesPlay e = false -> onKeyPress e s = Returned s [])
  /\ (forall e', tagName (target e') = tagName (target e) ->
                 key e' = key e ->
                 onKeyPress e' s = onKeyPress e s).
Proof.
  split; [|split; [|split]].
  - unfold keyTogglesPlay. rewrite !andb_true_iff, !eqb_false_neq.
    rewrite String.eqb_eq. tauto.
  - unfold onKeyPress. now intros ->.
  - unfold onKeyPress. now intros ->.
  - intros e' T K. unfold onKeyPress, keyTogglesPlay. now rewrite T, K.
Qed.

(** ** Reachable instances

    What the theorems above ask of an instance holds all along a run. *)

Lemma commit_video (p : Props) (c : Instance) :
  video (state c) = element c ->
  video (state (fst (commit p c))) = element (fst (commit p c)).
Proof.
  intros V. unfold commit.
  destruct (showsVideo p), (element c) as [e|] eqn:E;
    cbn [fst state element];
    destruct (runs same_url (lastDeps c) (depsOf p (state c)));
    cbn [resetOnUrl setCurrentData setPlaybackRate setIsPlaying
           setScrubberTime setVideo video];
    congruence.
Qed.

Lemma render_video (p : Props) (c : Instance) :
  video (state c) = element c ->
  video (state (fst (render p c))) = element (fst (render p c)).
Proof.
  intros V. unfold render.
  pose proof (commit_video p c V) as V1.
  destruct (commit p c) as [c1 k1]. simpl in V1.
  pose proof (commit_video p c1 V1) as V2.
  destruct (commit p c1) as [c2 k2]. exact V2.
Qed.

Lemma dispatch_element (timeToSecs : string -> num) (p : Props) (dom : Dom)
  (ev : Event) (c : Instance) :
  settled p c ->
  element (fst (dispatch timeToSecs p dom ev c)) = element c.
Proof.
  intros St. now rewrite (dispatch_settled timeToSecs dom ev St).
Qed.

(** Along a run the component is settled after each step, [video] is the
    element of the page, and there is one whenever the props show the
    video. *)
Lemma reachable_invariant (timeToSecs : string -> num) (p : Props)
  (c : Instance) :
  reachable timeToSecs p c ->
  settled p c
  /\ video (state c) = element c
  /\ (showsVideo p = true -> exists el, video (state c) = Some el).
Proof.
  intros R.
  assert (I : settled p c /\ video (state c) = element c).
  { induction R as [p|p p' c R [St V]|p dom ev c R [St V]].
    - split; [apply render_settles | now apply render_video].
    - split; [apply render_settles | now apply render_video].
    - split; [now apply dispatch_settles|].
      rewrite (dispatch_element timeToSecs dom ev St), <- V.
      rewrite (dispatch_settled timeToSecs dom ev St). cbn [fst state].
      apply handle_video. }
  destruct I as [St V]. repeat split; try apply St; try exact V.
  intros Sh. destruct St as [_ P]. rewrite Sh in P. rewrite V.
  destruct (element c) as [el|]; [now exists el | discriminate].
Qed.

(** Every object [App] holds stays allocated. *)
Lemma allocated_preserved (a : App) (now : Z) (t : num) (u : string) :
  allocated initialApp
  /\ (allocated a ->
      allocated (jumpToTimecode now t a)
      /\ allocated (uploadVideo_begin u a)
      /\ allocated (uploadVideo_done a)
      /\ allocated (uploadVideo_failed a)).
Proof.
  split; [exact I|]. intros A. unfold allocated in *. simpl.
  repeat split; try exact A. lia.
Qed.

(** ** The theorems at the scenarios, and where the spec and the code part *)

Import Scenario.

(** *** Scrubbing (C2) *)

Lemma scrub_drag_witness :
  scrubberTime
    (state (fst (dispatch Utils.timeToSecs props3 (at_time 12)
                   (ScrubChange half) loaded))) = half
  /\ isScrubbing
       (state (fst (dispatch Utils.timeToSecs props3 (at_time 12)
                      (ScrubChange half) loaded)))
     = isScrubbing (state loaded)
  /\ snd (dispatch Utils.timeToSecs props3 (at_time 12) (ScrubChange half)
            loaded)
     = [SetCurrentTime (JS.mul half (duration (state loaded)))].
Proof.
  refine (proj1 (proj2 (proj2
            (@scrub_drag Utils.timeToSecs props3 (at_time 12) loaded 0%nat
               half "a.mp4"%string _ _)))).
  - split; reflexivity.
  - reflexivity.
Defined.

(** A drag of the scrub control to the middle of a media of sixty
    seconds: the move itself issues the seek to second [30], and the end
    of the drag issues none. *)
Lemma scrub_move_seeks :
  let pressed :=
    fst (dispatch Utils.timeToSecs props3 (at_time 12) ScrubPointerDown
           loaded) in
  let moved :=
    dispatch Utils.timeToSecs props3 (at_time 12) (ScrubChange half)
      pressed in
  let released :=
    dispatch Utils.timeToSecs props3 (at_time 12) ScrubPointerUp
      (fst moved) in
  isScrubbing (state pressed) = true
  /\ seeks (snd moved) = [SetCurrentTime (JS.mul half (JS.of_Z 60))]
  /\ isScrubbing (state (fst released)) = false
  /\ seeks (snd released) = [].
Proof. vm_compute. repeat split. Qed.

(** *** Seek requests (C3) *)



(** *** Change of url (C4) *)

Lemma url_change_resets_witness :
  let c' := fst (render props_b playing) in
  scrubberTime (state c') = JS.zero
  /\ isPlaying (state c') = false
  /\ playbackRate (state c') = JS.one
  /\ currentData (state c') = None.
Proof.
  refine (proj1 (@url_change_resets Utils.timeToSecs props_b playing
                   (depsOf props3 (state playing)) _ _)).
  - reflexivity.
  - simpl. discriminate.
Defined.

(** The player shows ["a.mp4"], playing, at second [12].  The url changes
    to ["b.mp4"] and the state is reset.  A [play] event and a time
    update queued for ["a.mp4"] then arrive: the player is playing again,
    and the fraction and the annotation are those of the time update. *)
Lemma stale_events_undo_reset :
  let reset := fst (render props_b playing) in
  let late :=
    fst (dispatch Utils.timeToSecs props_b (at_time 12)
           (TimeUpdate "a.mp4")
           (fst (dispatch Utils.timeToSecs props_b (at_time 12)
                   (MediaPlay "a.mp4") reset))) in
  (isPlaying (state reset) = false
   /\ scrubberTime (state reset) = JS.zero
   /\ currentData (state reset) = None)
  /\ (isPlaying (state late) = true
      /\ JS.strict_eq (scrubberTime (state late)) (JS.of_Q (1 # 5)) = true
      /\ currentData (state late) = Some (entry "0:10")).
Proof. vm_compute. repeat split. Qed.

(** *** The scrub fraction (C5) *)

Lemma scrub_fraction_witness :
  let s' := stateOf (updateTime Utils.timeToSecs props3 (at_time 12)
                       attached) in
  JS.le JS.zero (scrubberTime s') = true
  /\ JS.le (scrubberTime s') JS.one = true.
Proof.
  refine (proj1 (proj2
            (@scrub_fraction Utils.timeToSecs props3 (at_time 12) attached
               0%nat _ _)) _ _ _ _); reflexivity.
Defined.

(** A time update before the metadata has loaded, and one for a media of
    duration [0]: the fraction stored is [NaN], not [0], and so is
    [currentPercent]. *)
Lemma unguarded_fraction_is_NaN :
  let early := stateOf (updateTime Utils.timeToSecs props3 before_metadata
                          attached) in
  let empty := stateOf (updateTime Utils.timeToSecs props3 empty_media
                          attached) in
  scrubberTime early = JS.NaN
  /\ scrubberTime empty = JS.NaN
  /\ scrubberTime early <> JS.zero
  /\ scrubberTime empty <> JS.zero
  /\ currentPercent early = JS.NaN.
Proof. vm_compute. repeat split; discriminate. Qed.

(** *** The annotation (C6) *)

Lemma annotation_after_time_update_witness :
  currentData (stateOf (updateTime Utils.timeToSecs props3 (at_time 3)
                          (state playing)))
  = findAnnotation Utils.timeToSecs (rev list3) (JS.of_Z 3).
Proof.
  refine (proj1 (@annotation_after_time_update Utils.timeToSecs props3
                   (at_time 3) (state playing) 0%nat _) list3 _);
    reflexivity.
Defined.

(** At second [12] the annotation is the entry at ["0:10"].  The host
    then drops the list; on the time updates that follow, here back at
    second [3], the entry at ["0:10"] is still the annotation. *)
Lemma stale_annotation_kept :
  let dropped := fst (render props_no_list playing) in
  let later :=
    fst (dispatch Utils.timeToSecs props_no_list (at_time 3)
           (TimeUpdate "a.mp4") dropped) in
  currentData (state playing) = Some (entry "0:10")
  /\ timecodeList props_no_list = None
  /\ currentData (state later) = Some (entry "0:10").
Proof. vm_compute. repeat split. Qed.

(** *** Mute (C8) *)

Lemma mute_then_unmute_witness :
  let muted := dispatch Utils.timeToSecs props3 (at_time 12) MuteClick
                 quiet in
  let unmuted := dispatch Utils.timeToSecs props3 (at_time 12) MuteClick
                   (fst muted) in
  isMuted (state (fst unmuted)) = false
  /\ volume (state (fst unmuted)) = volume (state quiet)
  /\ effectiveVolume (state (fst unmuted)) = volume (state quiet)
  /\ snd unmuted = [SetVolume (volume (state quiet))]
  /\ state (fst unmuted) = state quiet.
Proof.
  refine (proj2 (@mute_then_unmute Utils.timeToSecs props3 (at_time 12)
                   quiet 0%nat _ _ _)).
  - split; reflexivity.
  - reflexivity.
  - reflexivity.
Defined.

Example volume_reads_0_4 : volume (state quiet) = JS.of_Q (2 # 5).
Proof. reflexivity. Qed.

(** *** The space bar (C9) *)

Lemma space_toggles_by_tag_name_witness :
  onKeyPress (space_on plain_div) attached = togglePlay attached.
Proof.
  refine (proj1 (proj2 (space_toggles_by_tag_name (space_on plain_div)
                          attached)) _).
  reflexivity.
Defined.

(** The space bar on the scrub control of the player, which takes no
    text, does not toggle; on an element one can type into that is
    neither an [<input>] nor a [<textarea>], it does. *)
Lemma space_ignores_capability :
  (acceptsTextInput range_input = false
   /\ onKeyPress (space_on range_input) attached = Returned attached [])
  /\ (acceptsTextInput editable_div = true
      /\ onKeyPress (space_on editable_div) attached
         = Returned attached [Play]).
Proof. vm_compute. repeat split. Qed.

(** *** Click on the video (C10) *)

Lemma video_click_toggles_witness :
  snd (dispatch Utils.timeToSecs props3 (at_time 12) VideoClick playing)
  = [if isPlaying (state playing) then Pause else Play].
Proof.
  refine (proj1 (proj2 (@video_click_toggles Utils.timeToSecs props3
                          (at_time 12) playing 0%nat _ _))).
  - split; reflexivity.
  - reflexivity.
Defined.

(** The player shows ["a.mp4"] and plays.  The url changes to
    ["b.mp4"]: no event reaches the player and it issues no command, and
    yet [isPlaying] is false after the render. *)
Lemma url_change_clears_isPlaying :
  isPlaying (state playing) = true
  /\ url props_b <> url props3
  /\ isPlaying (state (fst (render props_b playing))) = false
  /\ snd (render props_b playing) = [].
Proof. vm_compute. repeat split. discriminate. Qed.

Example click_while_playing :
  snd (dispatch Utils.timeToSecs props3 (at_time 12) VideoClick playing)
  = [Pause].
Proof. reflexivity. Qed.

(** ** Further properties of the annotation index *)

Section MoreAnnotation.

Variable timeToSecs : string -> num.

(** What the lookup of [updateTime] finds in the reversed copy of an
    ascending list. *)
Lemma findAnnotation_greatest (l : list Timecode) (t : num) :
  ascending timeToSecs l ->
  match findAnnotation timeToSecs (rev l) t with
  | Some e =>
      In e l /\ JS.le (secs timeToSecs e) t = true /\
      forall e', In e' l -> JS.le (secs timeToSecs e') t = true ->
                 JS.le (secs timeToSecs e') (secs timeToSecs e) = true
  | None => forall e', In e' l -> JS.le (secs timeToSecs e') t = false
  end.
Proof.
  intros A.
  pose proof (find_rev_last
                (fun x => JS.le (timeToSecs (time x)) t) l) as F.
  unfold findAnnotation.
  destruct (find (fun x => JS.le (timeToSecs (time x)) t) (rev l))
    as [e|]; [|exact F].
  destruct F as (l1 & l2 & -> & Fe & Hl2). split; [|split]; auto.
  - apply in_or_app. right. now left.
  - intros e' He' Le'. apply in_app_or in He'.
    destruct He' as [H1|[<-|H2]].
    + eapply ascending_before; eauto.
    + eapply JSFacts.le_refl_of_le; eauto.
    + unfold secs in Le'. rewrite (Hl2 _ H2) in Le'. discriminate.
Qed.

Lemma le_antisym_strict_eq (a b : num) :
  JS.le a b = true -> JS.le b a = true -> JS.strict_eq a b = true.
Proof.
  destruct a, b; simpl; try congruence.
  rewrite !JSFacts.Qc_leb_le, JSFacts.Qc_eqb_eq. apply Qcle_antisym.
Qed.

(** X1.  The annotation never goes back when the time goes forward: with
    an ascending list, if a time update at one time selects an entry, a
    time update at a later time selects an entry too, and its time is at
    least the time of the first. *)
Theorem annotation_monotone (p : Props) (dom1 dom2 : Dom)
  (s : PlayerState) (l : list Timecode) (el : nat) (e1 : Timecode) :
  timecodeList p = Some l ->
  video s = Some el ->
  ascending timeToSecs l ->
  JS.le (el_currentTime dom1) (el_currentTime dom2) = true ->
  currentData (stateOf (updateTime timeToSecs p dom1 s)) = Some e1 ->
  exists e2,
    currentData (stateOf (updateTime timeToSecs p dom2 s)) = Some e2
    /\ JS.le (secs timeToSecs e1) (secs timeToSecs e2) = true.
Proof.
  intros L V A Le.
  rewrite !(updateTime_currentData timeToSecs p _ s L V).
  pose proof (findAnnotation_greatest (el_currentTime dom1) A) as F1.
  pose proof (findAnnotation_greatest (el_currentTime dom2) A) as F2.
  intros E1. rewrite E1 in F1. destruct F1 as (In1 & Le1 & _).
  pose proof (JSFacts.le_trans _ _ _ Le1 Le) as Le2.
  destruct (findAnnotation timeToSecs (rev l) (el_currentTime dom2))
    as [e2|].
  - exists e2. split; [reflexivity|]. now apply F2.
  - rewrite (F2 _ In1) in Le2. discriminate.
Qed.

(** X2.  A time update at the very time of an entry of an ascending list
    selects an entry of that time; it is the entry itself when no other
    entry of the list has the same time. *)
Theorem annotation_at_entry_time (p : Props) (dom : Dom) (s : PlayerState)
  (l : list Timecode) (el : nat) (e : Timecode) :
  timecodeList p = Some l ->
  video s = Some el ->
  ascending timeToSecs l ->
  In e l ->
  JS.le (secs timeToSecs e) (secs timeToSecs e) = true ->
  el_currentTime dom = secs timeToSecs e ->
  let selected := currentData (stateOf (updateTime timeToSecs p dom s)) in
  (exists e', selected = Some e' /\ In e' l
              /\ JS.strict_eq (secs timeToSecs e') (secs timeToSecs e)
                 = true)
  /\ ((forall x, In x l ->
                 JS.strict_eq (secs timeToSecs x) (secs timeToSecs e) = true ->
                 x = e) ->
      selected = Some e).
Proof.
  intros L V A I R T selected. subst selected.
  rewrite (updateTime_currentData timeToSecs p dom s L V), T.
  pose proof (findAnnotation_greatest (secs timeToSecs e) A) as F.
  destruct (findAnnotation timeToSecs (rev l) (secs timeToSecs e))
    as [e'|].
  - destruct F as (In' & Le' & Max).
    assert (Eq : JS.strict_eq (secs timeToSecs e') (secs timeToSecs e)
                 = true)
      by (apply le_antisym_strict_eq; auto).
    split; [exists e'; auto|].
    intros U. now rewrite (U e' In' Eq).
  - rewrite (F e I) in R. discriminate.
Qed.

(** X3.  A time update issues no command and sets nothing but the scrub
    fraction and the annotation: in particular it never seeks, so that
    the seek of a drag and the time updates it causes cannot feed each
    other, and it never touches [isScrubbing], [isPlaying], the volume or
    the rate. *)
Theorem time_update_frame (p : Props) (dom : Dom) (c : Instance)
  (origin : string) :
  settled p c ->
  let after := dispatch timeToSecs p dom (TimeUpdate origin) c in
  snd after = []
  /\ video (state (fst after)) = video (state c)
  /\ duration (state (fst after)) = duration (state c)
  /\ isPlaying (state (fst after)) = isPlaying (state c)
  /\ isScrubbing (state (fst after)) = isScrubbing (state c)
  /\ volume (state (fst after)) = volume (state c)
  /\ isMuted (state (fst after)) = isMuted (state c)
  /\ playbackRate (state (fst after)) = playbackRate (state c)
  /\ isFullscreen (state (fst after)) = isFullscreen (state c).
Proof.
  intros St after. subst after.
  rewrite (dispatch_settled timeToSecs dom _ St).
  cbn [fst snd state handle].
  assert (F : forall s,
             let s' := stateOf (updateTime timeToSecs p dom s) in
             commandsOf (updateTime timeToSecs p dom s) = []
             /\ video s' = video s /\ duration s' = duration s
             /\ isPlaying s' = isPlaying s /\ isScrubbing s' = isScrubbing s
             /\ volume s' = volume s /\ isMuted s' = isMuted s
             /\ playbackRate s' = playbackRate s
             /\ isFullscreen s' = isFullscreen s).
  { intros s. unfold updateTime, timecodeListReversed.
    destruct (isScrubbing s) eqn:Sc, (video s) eqn:V,
      (timecodeList p) as [l|];
      cbn [negb option_map]; try destruct (rev l);
      cbn [stateOf commandsOf setCurrentData setScrubberTime video duration
             isPlaying isScrubbing volume isMuted playbackRate
             isFullscreen];
      repeat split; auto. }
  destruct (F (state c)) as (K & V & D & Pl & Sc & Vo & Mu & Ra & Fs).
  rewrite K, Vo, Mu, Ra. same_deps. cbn [andb app].
  repeat split; assumption.
Qed.

End MoreAnnotation.

(** ** Further properties of the controls *)

Lemma same_value_eq (a b : num) : JS.same_value a b = true -> a = b.
Proof.
  destruct a, b; simpl; try congruence.
  intros H. apply JSFacts.Qc_eqb_eq in H. now subst.
Qed.

Lemma nextRate_in_rates (r : num) : In (nextRate r) rates.
Proof.
  unfold nextRate, rates_at. pose proof (nextIndex_range r) as R.
  destruct (nextIndex r) as [|i|i]; try lia.
  - simpl. auto.
  - cbn [Z.ltb Z.compare].
    assert (H : (Z.to_nat (Z.pos i) < 4)%nat) by lia.
    destruct (Z.to_nat (Z.pos i)) as [|[|[|[|n]]]]; simpl; auto. lia.
Qed.

Lemma nextRate_changes (r : num) : JS.same_value r (nextRate r) = false.
Proof.
  destruct (JS.same_value r (nextRate r)) eqn:E; [|reflexivity].
  apply same_value_eq in E. exfalso.
  assert (I : In r rates) by (rewrite E; apply nextRate_in_rates).
  simpl in I. destruct I as [<-|[<-|[<-|[<-|[]]]]]; discriminate E.
Qed.

Section Controls.

Variable timeToSecs : string -> num.

(** X4.  The marker of an entry leads to its time: a click on the tick
    of the [i]-th marker calls the host with the seconds of the [i]-th
    entry and sets no state, and once the host has turned the call into a
    seek request the next render seeks the element to those seconds. *)
Theorem marker_click_seeks (a : App) (dom : Dom) (c : Instance) (el : nat)
  (l : list Timecode) (i : nat) (e : Timecode) (now : Z) :
  allocated a ->
  settled (playerProps a) c ->
  video (state c) = Some el ->
  app_timecodeList a = Some l ->
  nth_error l i = Some e ->
  let clicked := dispatch timeToSecs (playerProps a) dom (MarkerClick i) c in
  let a' := jumpToTimecode now (secs timeToSecs e) a in
  snd clicked = [HostJumpToTimecode (secs timeToSecs e)]
  /\ state (fst clicked) = state c
  /\ snd (render (playerProps a') (fst clicked))
     = [SetCurrentTime (secs timeToSecs e)].
Proof.
  intros A St V L N clicked a'.
  assert (E : clicked
              = ({| state := state c;
                    lastDeps := Some (depsOf (playerProps a) (state c));
                    element := element c;
                    nextElement := nextElement c |},
                 [HostJumpToTimecode (secs timeToSecs e)])).
  { subst clicked. rewrite (dispatch_settled timeToSecs dom _ St).
    cbn [handle stateOf commandsOf]. unfold markerClick.
    cbn [playerProps timecodeList]. rewrite L, N. same_deps.
    reflexivity. }
  assert (St' : settled (playerProps a) (fst clicked)).
  { rewrite E. split; [reflexivity | apply St]. }
  rewrite (render_new_props (p := playerProps a) _ St'); try reflexivity.
  rewrite E. cbn [fst snd state].
  cbn [playerProps a' jumpToTimecode seekOperation app_seekOperation
         option_map so_ref].
  rewrite same_option_nat_neq.
  - unfold seekEffect. rewrite V. repeat split; reflexivity.
  - unfold allocated in A. destruct (app_seekOperation a); exact A.
Qed.

(** X5.  After a change of the volume slider the volume the element
    hears is the value of the slider: the stored volume is that value,
    [isMuted] is true exactly when the value is [0], so that a slider
    moved above [0] unmutes, and the one command that can be issued
    writes the value to the element. *)
Theorem volume_slider (p : Props) (dom : Dom) (c : Instance) (el : nat)
  (v : num) :
  settled p c ->
  video (state c) = Some el ->
  let after := dispatch timeToSecs p dom (VolumeChange v) c in
  volume (state (fst after)) = v
  /\ isMuted (state (fst after)) = JS.strict_eq v JS.zero
  /\ effectiveVolume (state (fst after)) = v
  /\ snd after
     = (if JS.same_value (volume (state c)) v
           && Bool.eqb (isMuted (state c)) (JS.strict_eq v JS.zero)
        then [] else [SetVolume v]).
Proof.
  intros St V after. subst after.
  rewrite (dispatch_settled timeToSecs dom _ St).
  cbn [fst snd state handle stateOf commandsOf].
  assert (E : effectiveVolume (volumeChange v (state c)) = v).
  { unfold effectiveVolume, volumeChange. cbn [isMuted setIsMuted volume
                                                 setVolume].
    destruct (JS.strict_eq v JS.zero) eqn:Z; [|reflexivity].
    symmetry. now apply JSFacts.strict_eq_eq. }
  unfold volumeEffect. rewrite E.
  unfold volumeChange at 1 2 3 4 5 6.
  cbn [volume isMuted playbackRate video setIsMuted setVolume].
  rewrite V. same_deps. rewrite app_nil_r.
  repeat split; reflexivity.
Qed.

(** X6.  The mute button does not bring the sound back after the slider
    has been moved to [0]: the slider has stored [0] as the volume, so
    after the click [isMuted] is false and yet the element is written the
    volume [0] and the mute icon still reads [volume_off]. *)
Theorem unmute_after_slider_at_zero (p : Props) (dom : Dom) (c : Instance)
  (el : nat) :
  settled p c ->
  video (state c) = Some el ->
  let silenced := dispatch timeToSecs p dom (VolumeChange JS.zero) c in
  let clicked := dispatch timeToSecs p dom MuteClick (fst silenced) in
  isMuted (state (fst silenced)) = true
  /\ isMuted (state (fst clicked)) = false
  /\ volume (state (fst clicked)) = JS.zero
  /\ effectiveVolume (state (fst clicked)) = JS.zero
  /\ volumeIcon (state (fst clicked)) = "volume_off"%string
  /\ snd clicked = [SetVolume JS.zero].
Proof.
  intros St V silenced clicked.
  assert (St' : settled p (fst silenced)) by now apply dispatch_settles.
  subst clicked. rewrite (dispatch_settled timeToSecs dom _ St').
  subst silenced. rewrite (dispatch_settled timeToSecs dom _ St).
  cbn [fst snd state handle stateOf commandsOf].
  unfold volumeEffect, rateEffect, effectiveVolume, volumeIcon, toggleMute,
    volumeChange.
  cbn [setIsMuted setVolume isMuted volume playbackRate video].
  rewrite V. same_deps.
  change (JS.strict_eq JS.zero JS.zero) with true.
  cbn [negb andb orb Bool.eqb app]. repeat split; reflexivity.
Qed.

(** X7.  The fullscreen button asks the page and never sets the flag: a
    click requests fullscreen when the document has no fullscreen
    element and exits otherwise, whatever [isFullscreen] holds, and
    leaves the state alone; the [fullscreenchange] event copies the
    state of the document into [isFullscreen], and no other event sets
    it. *)
Theorem fullscreen_follows_document (p : Props) (dom : Dom) (c : Instance) :
  settled p c ->
  let after (ev : Event) := dispatch timeToSecs p dom ev c in
  snd (after FullscreenClick)
  = [if fullscreenElement dom then ExitFullscreen else RequestFullscreen]
  /\ state (fst (after FullscreenClick)) = state c
  /\ isFullscreen (state (fst (after FullscreenChange)))
     = fullscreenElement dom
  /\ snd (after FullscreenChange) = []
  /\ (forall ev,
        isFullscreen (state (fst (after ev))) <> isFullscreen (state c) ->
        ev = FullscreenChange).
Proof.
  intros St after. subst after. cbv beta.
  rewrite !(dispatch_settled timeToSecs dom _ St).
  cbn [fst snd state handle stateOf commandsOf]. same_deps.
  unfold toggleFullscreen, onFullscreenChange.
  cbn [setIsFullscreen isFullscreen volume isMuted playbackRate].
  same_deps. cbn [andb app].
  split; [destruct (fullscreenElement dom); reflexivity|].
  repeat split.
  intros ev. rewrite (dispatch_settled timeToSecs dom _ St).
  cbn [fst state].
  destruct ev; try reflexivity; intros H; exfalso; apply H; clear H;
    cbn [handle stateOf];
    unfold togglePlay, updateDuration, updateTime, scrubChange, onKeyPress,
      togglePlay, timecodeListReversed.
  4:{ destruct (isScrubbing (state c)), (video (state c)),
        (timecodeList p) as [l|];
        simpl; try destruct (rev l); reflexivity. }
  all: repeat match goal with
         | |- context [match ?x with _ => _ end] => destruct x; simpl
         end; reflexivity.
Qed.

(** X8.  Every click on the speed button writes one new rate to the
    element: the rate set is one of [[0.5, 1, 1.5, 2]], it differs from
    the rate before, and the only command is the write of it. *)
Theorem speed_click_writes_rate (p : Props) (dom : Dom) (c : Instance)
  (el : nat) :
  settled p c ->
  video (state c) = Some el ->
  let after := dispatch timeToSecs p dom SpeedClick c in
  In (playbackRate (state (fst after))) rates
  /\ playbackRate (state (fst after)) <> playbackRate (state c)
  /\ snd after = [SetPlaybackRate (playbackRate (state (fst after)))].
Proof.
  intros St V after. subst after.
  rewrite (dispatch_settled timeToSecs dom _ St).
  cbn [fst snd state handle stateOf commandsOf].
  unfold cyclePlaybackRate, rateEffect.
  cbn [setPlaybackRate playbackRate volume isMuted video].
  rewrite V, nextRate_changes. same_deps. cbn [andb app].
  split; [apply nextRate_in_rates|]. split; [|reflexivity].
  intros E. pose proof (nextRate_changes (playbackRate (state c))) as N.
  rewrite E in N. now rewrite same_value_refl in N.
Qed.

End Controls.

(** ** Properties along a run *)

Lemma commit_state_cases (p : Props) (c : Instance) :
  exists v, state (fst (commit p c)) = setVideo v (state c)
            \/ state (fst (commit p c)) = resetOnUrl (setVideo v (state c)).
Proof.
  unfold commit.
  destruct (runs same_url (lastDeps c) (depsOf p (state c)));
    destruct (showsVideo p), (element c); cbn [fst state];
    first [ exists (video (state c)); destruct (state c); simpl; auto; fail
          | eexists; auto ].
Qed.

Section Runs.

Variable timeToSecs : string -> num.

Lemma handle_playbackRate (p : Props) (dom : Dom) (ev : Event)
  (s : PlayerState) :
  playbackRate (stateOf (handle timeToSecs p dom ev s)) = playbackRate s
  \/ playbackRate (stateOf (handle timeToSecs p dom ev s))
     = nextRate (playbackRate s).
Proof.
  destruct ev; try (left; reflexivity); try (right; reflexivity); left;
    cbn [handle stateOf];
    unfold togglePlay, updateDuration, updateTime, scrubChange, onKeyPress,
      togglePlay, timecodeListReversed.
  4:{ destruct (isScrubbing s), (video s), (timecodeList p) as [l|];
        simpl; try destruct (rev l); reflexivity. }
  all: repeat match goal with
         | |- context [match ?x with _ => _ end] => destruct x; simpl
         end; reflexivity.
Qed.

(** X9.  The playback rate is one of [[0.5, 1, 1.5, 2]] all along a run:
    it starts at [1], a change of url puts it back to [1], the speed
    button moves it inside the set and nothing else sets it. *)
Theorem playbackRate_in_rates (p : Props) (c : Instance) :
  reachable timeToSecs p c -> In (playbackRate (state c)) rates.
Proof.
  assert (R : forall p c, In (playbackRate (state c)) rates ->
                          In (playbackRate (state (fst (render p c)))) rates).
  { intros q d I. rewrite render_state.
    destruct (commit_state_cases q d) as [v [E|E]]; rewrite E.
    - exact I.
    - simpl. auto. }
  induction 1 as [p|p p' c _ IH|p dom ev c Rc IH].
  - apply R. simpl. auto.
  - now apply R.
  - destruct (reachable_invariant Rc) as (St & _).
    rewrite (dispatch_settled timeToSecs dom ev St). cbn [fst state].
    destruct (handle_playbackRate p dom ev (state c)) as [E|E]; rewrite E.
    + exact IH.
    + apply nextRate_in_rates.
Qed.

Lemma handle_volume_frame (p : Props) (dom : Dom) (ev : Event)
  (s : PlayerState) :
  match ev with
  | VolumeChange _ => True
  | MuteClick =>
      volume (stateOf (handle timeToSecs p dom ev s)) = volume s
  | _ =>
      volume (stateOf (handle timeToSecs p dom ev s)) = volume s
      /\ isMuted (stateOf (handle timeToSecs p dom ev s)) = isMuted s
  end.
Proof.
  destruct ev; try exact I; try reflexivity; try (split; reflexivity);
    cbn [handle stateOf];
    unfold togglePlay, updateDuration, updateTime, scrubChange, onKeyPress,
      togglePlay, timecodeListReversed.
  4:{ destruct (isScrubbing s), (video s), (timecodeList p) as [l|];
        simpl; try destruct (rev l); split; reflexivity. }
  all: repeat match goal with
         | |- context [match ?x with _ => _ end] => destruct x; simpl
         end; split; reflexivity.
Qed.

Lemma handle_volume (p : Props) (dom : Dom) (ev : Event) (s : PlayerState) :
  (volume (stateOf (handle timeToSecs p dom ev s)) <> volume s ->
   exists v, ev = VolumeChange v)
  /\ (isMuted (stateOf (handle timeToSecs p dom ev s)) <> isMuted s ->
      ev = MuteClick \/ exists v, ev = VolumeChange v).
Proof.
  pose proof (handle_volume_frame p dom ev s) as F.
  destruct ev; split; intros H; eauto;
    first [contradiction | destruct F; contradiction].
Qed.

(** X10.  The volume the user has set is kept: no render changes the
    stored volume or the mute flag, whatever the props, so that they
    survive a change of video; among the events only a change of the
    volume slider sets the stored volume, and only that and the mute
    button set the mute flag. *)
Theorem volume_is_kept (p p' : Props) (dom : Dom) (c : Instance) :
  settled p c ->
  (volume (state (fst (render p' c))) = volume (state c)
   /\ isMuted (state (fst (render p' c))) = isMuted (state c))
  /\ (forall ev,
        volume (state (fst (dispatch timeToSecs p dom ev c)))
        <> volume (state c) ->
        exists v, ev = VolumeChange v)
  /\ (forall ev,
        isMuted (state (fst (dispatch timeToSecs p dom ev c)))
        <> isMuted (state c) ->
        ev = MuteClick \/ exists v, ev = VolumeChange v).
Proof.
  intros St. split; [|split].
  - rewrite render_state.
    destruct (commit_state_cases p' c) as [v [E|E]]; rewrite E;
      split; reflexivity.
  - intros ev. rewrite (dispatch_settled timeToSecs dom ev St).
    apply handle_volume.
  - intros ev. rewrite (dispatch_settled timeToSecs dom ev St).
    apply handle_volume.
Qed.

(** X11.  The space bar with no video on the screen throws: the key
    listener is on the window, and all along a run, while the props show
    no video, [video] is [null], so that [togglePlay] fails on reading
    it; no state is set and no command issued. *)
Theorem space_without_video_throws (p : Props) (dom : Dom) (c : Instance)
  (e : KeyEvent) :
  reachable timeToSecs p c ->
  showsVideo p = false ->
  keyTogglesPlay e = true ->
  video (state c) = None
  /\ handle timeToSecs p dom (KeyPress e) (state c) = Threw (state c) []
  /\ state (fst (dispatch timeToSecs p dom (KeyPress e) c)) = state c
  /\ snd (dispatch timeToSecs p dom (KeyPress e) c) = [].
Proof.
  intros R Sh K. destruct (reachable_invariant R) as (St & V & _).
  assert (N : video (state c) = None).
  { destruct St as [_ P]. rewrite Sh in P. rewrite V.
    destruct (element c); [discriminate | reflexivity]. }
  assert (H : handle timeToSecs p dom (KeyPress e) (state c)
              = Threw (state c) []).
  { cbn [handle]. unfold onKeyPress, togglePlay. now rewrite K, N. }
  rewrite (dispatch_settled timeToSecs dom _ St). rewrite H.
  cbn [fst snd state stateOf commandsOf]. same_deps.
  repeat split; auto.
Qed.

End Runs.

(** X12.  The first render with props that show a video creates the
    element and, once [video] holds it, writes the initial volume [1] and
    rate [1] to it, after the seek of a request that was made before the
    element existed; with props that show no video it issues nothing. *)
Theorem first_render (p : Props) :
  let mounted := render p unmounted in
  (showsVideo p = true ->
   video (state (fst mounted)) = Some 0%nat
   /\ snd mounted
      = match seekOperation p with
        | Some op => [SetCurrentTime (so_time op)]
        | None => []
        end ++ [SetVolume JS.one; SetPlaybackRate JS.one])
  /\ (showsVideo p = false ->
      video (state (fst mounted)) = None /\ snd mounted = []).
Proof.
  unfold render, commit, unmounted. cbn [state lastDeps element nextElement].
  destruct (showsVideo p); cbn [runs fst snd state lastDeps element
                                  nextElement];
    unfold runs, same_video, same_seek, same_url, seekEffect, volumeEffect,
      rateEffect, effectiveVolume; simpl;
    rewrite ?same_option_refl
      by (first [apply String.eqb_refl | apply Nat.eqb_refl]);
    simpl; split; intros H; try discriminate H;
    destruct (seekOperation p); split; reflexivity.
Qed.

(** ** Another video *)

Lemma truthy_string_nonempty (u : string) :
  u <> EmptyString -> JS.truthy_string u = true.
Proof. destruct u; [congruence | reflexivity]. Qed.

Section AnotherVideo.

Variable timeToSecs : string -> num.

(** X13.  Dropping another video on the page while one is shown.  While
    the video loads the player shows its processing message, removes the
    element and resets the scrub fraction, the play flag, the rate and
    the annotation, without a command.  Once it has loaded, a new element
    is created and is written the volume the user had set, muted or not,
    and the rate [1], after a seek to the time of the last seek request
    if the host still holds one.  The duration stays the one of the
    previous video until the new element reports its own. *)
Theorem another_video (a : App) (c : Instance) (u : string) :
  reachable timeToSecs (playerProps a) c ->
  showsVideo (playerProps a) = true ->
  u <> EmptyString ->
  vidUrl a <> Some u ->
  let a1 := uploadVideo_begin u a in
  let r1 := render (playerProps a1) c in
  let a2 := uploadVideo_done a1 in
  let r2 := render (playerProps a2) (fst r1) in
  (screen (playerProps a1) = Message "Processing video..."
   /\ video (state (fst r1)) = None
   /\ snd r1 = [])
  /\ (screen (playerProps a2) = Stage
      /\ video (state (fst r2)) = Some (nextElement c)
      /\ scrubberTime (state (fst r2)) = JS.zero
      /\ isPlaying (state (fst r2)) = false
      /\ playbackRate (state (fst r2)) = JS.one
      /\ currentData (state (fst r2)) = None
      /\ volume (state (fst r2)) = volume (state c)
      /\ isMuted (state (fst r2)) = isMuted (state c)
      /\ duration (state (fst r2)) = duration (state c))
  /\ snd r2
     = match app_seekOperation a with
       | Some op => [SetCurrentTime (so_time op)]
       | None => []
       end ++ [SetVolume (effectiveVolume (state c));
               SetPlaybackRate JS.one].
Proof.
  intros R Sh U N a1 r1 a2 r2.
  destruct (reachable_invariant R) as ([D P] & V & E).
  destruct (E Sh) as [el Vel]. clear E.
  destruct c as [s d e n]. cbn [state lastDeps element nextElement] in *.
  subst d. rewrite Vel in V. subst e.
  assert (Sh1 : showsVideo (playerProps a1) = false).
  { unfold showsVideo. cbn. apply andb_false_r. }
  assert (Sh2 : showsVideo (playerProps a2) = true).
  { unfold showsVideo. cbn. now rewrite truthy_string_nonempty. }
  assert (Ur : same_option String.eqb (vidUrl a) (Some u) = false)
    by now apply same_option_string_neq.
  set (s1 := resetOnUrl (setVideo None s)).
  assert (C1 : commit (playerProps a1)
                 (mkInstance s (Some (depsOf (playerProps a) s))
                    (Some el) n)
               = (mkInstance s1 (Some (depsOf (playerProps a1) s)) None n,
                  [])).
  { unfold commit. cbn [state lastDeps element nextElement].
    rewrite Sh1. unfold runs, same_url, same_video, same_seek.
    cbn [depsOf dep_url dep_video dep_seek dep_volume dep_isMuted
           dep_playbackRate playerProps url seekOperation a1
           uploadVideo_begin vidUrl app_seekOperation].
    rewrite Ur.
    rewrite !same_option_refl by apply Nat.eqb_refl.
    same_deps. reflexivity. }
  assert (C2 : commit (playerProps a1)
                 (mkInstance s1 (Some (depsOf (playerProps a1) s)) None n)
               = (mkInstance s1 (Some (depsOf (playerProps a1) s1)) None n,
                  [])).
  { unfold commit. cbn [state lastDeps element nextElement].
    rewrite Sh1. unfold runs, same_url, same_video, same_seek.
    cbn [depsOf dep_url dep_video dep_seek dep_volume dep_isMuted
           dep_playbackRate].
    rewrite !same_option_refl by apply String.eqb_refl.
    unfold seekEffect, volumeEffect, rateEffect. subst s1.
    cbn [resetOnUrl setCurrentData setPlaybackRate setIsPlaying
           setScrubberTime setVideo video].
    rewrite Vel. reflexivity. }
  set (s2 := setVideo (Some n) s1).
  assert (C3 : commit (playerProps a2)
                 (mkInstance s1 (Some (depsOf (playerProps a1) s1)) None n)
               = (mkInstance s2 (Some (depsOf (playerProps a2) s1))
                    (Some n) (S n), [])).
  { unfold commit. cbn [state lastDeps element nextElement].
    rewrite Sh2. unfold runs, same_url, same_video, same_seek.
    cbn [depsOf dep_url dep_video dep_seek dep_volume dep_isMuted
           dep_playbackRate playerProps url seekOperation a2 a1
           uploadVideo_done uploadVideo_begin vidUrl app_seekOperation].
    rewrite !same_option_refl
      by (first [apply String.eqb_refl | apply Nat.eqb_refl]).
    same_deps. reflexivity. }
  assert (C4 : commit (playerProps a2)
                 (mkInstance s2 (Some (depsOf (playerProps a2) s1))
                    (Some n) (S n))
               = (mkInstance s2 (Some (depsOf (playerProps a2) s2))
                    (Some n) (S n),
                  match app_seekOperation a with
                  | Some op => [SetCurrentTime (so_time op)]
                  | None => []
                  end ++ [SetVolume (effectiveVolume s);
                          SetPlaybackRate JS.one])).
  { unfold commit. cbn [state lastDeps element nextElement].
    rewrite Sh2. unfold runs, same_url, same_video, same_seek.
    cbn [depsOf dep_url dep_video dep_seek dep_volume dep_isMuted
           dep_playbackRate].
    rewrite !same_option_refl by apply String.eqb_refl.
    unfold seekEffect, volumeEffect, rateEffect, effectiveVolume.
    subst s2 s1.
    cbn [resetOnUrl setCurrentData setPlaybackRate setIsPlaying
           setScrubberTime setVideo video volume isMuted playbackRate
           same_option negb andb playerProps seekOperation a2 a1
           uploadVideo_done uploadVideo_begin app_seekOperation].
    destruct (app_seekOperation a); reflexivity. }
  assert (E1 : r1 = (mkInstance s1 (Some (depsOf (playerProps a1) s1))
                       None n, [])).
  { subst r1. unfold render. now rewrite C1, C2. }
  assert (E2 : r2 = (mkInstance s2 (Some (depsOf (playerProps a2) s2))
                       (Some n) (S n),
                     match app_seekOperation a with
                     | Some op => [SetCurrentTime (so_time op)]
                     | None => []
                     end ++ [SetVolume (effectiveVolume s);
                             SetPlaybackRate JS.one])).
  { subst r2. rewrite E1. cbn [fst]. unfold render. now rewrite C3, C4. }
  rewrite E1, E2. unfold screen. rewrite Sh1, Sh2.
  repeat split; reflexivity.
Qed.

End AnotherVideo.

(** ** The host *)

Lemma hostRun_url (n : nat) (a : App) :
  hostRun n a ->
  match vidUrl a with
  | Some u => u <> EmptyString
  | None => app_videoError a = false /\ n = 0%nat
  end.
Proof.
  induction 1
    as [|n a u _ IH U|n a _ IH|n a _ IH|n a _ IH|n a now t _ IH|n a l _ IH];
    cbn [vidUrl uploadVideo_begin uploadVideo_done uploadVideo_failed
           uploadVideo_no_file jumpToTimecode setTimecodeList initialApp
           app_videoError] in *; auto.
  - destruct (vidUrl a); [assumption|]. destruct IH as (_ & Z).
    discriminate Z.
  - destruct (vidUrl a); [assumption|]. destruct IH as (_ & Z).
    discriminate Z.
Qed.

(** X14.  The message [Error processing video.] never reaches the
    screen.  [videoError] is set only where [uploadVideo] catches a
    failed upload, and there [isLoadingVideo] is left true: the player
    goes on showing [Processing video...]; and once an upload has
    succeeded there is a url, so that the player shows the video.  All
    along a run of the host the player shows the video, the processing
    message, or, as long as no file has been dropped, the invitation to
    drop one. *)
Theorem error_message_unreachable (n : nat) (a : App) :
  hostRun n a ->
  screen (playerProps a) <> Message "Error processing video."
  /\ (screen (playerProps a) = Stage
      \/ screen (playerProps a) = Message "Processing video..."
      \/ (vidUrl a = None
          /\ screen (playerProps a)
             = Message "Drag and drop a video file here to get started.")).
Proof.
  intros R. pose proof (hostRun_url R) as I.
  unfold screen, showsVideo, emptyMessage.
  cbn [playerProps url isLoadingVideo videoError].
  destruct (vidUrl a) as [u|].
  - rewrite (truthy_string_nonempty I). cbn [andb].
    destruct (app_isLoadingVideo a); cbn [negb]; split; auto; discriminate.
  - destruct I as (-> & _). cbn [andb].
    destruct (app_isLoadingVideo a); split; auto; discriminate.
Qed.

(** X15.  A failed upload is not told from one in progress: whatever
    the state of the host, after [uploadVideo] has started and
    [uploadFile] has failed the player shows [Processing video...], as
    it did while the upload ran. *)
Theorem failed_upload_keeps_processing (a : App) (u : string) :
  let dropped := uploadVideo_begin u a in
  screen (playerProps dropped) = Message "Processing video..."
  /\ app_videoError (uploadVideo_failed dropped) = true
  /\ screen (playerProps (uploadVideo_failed dropped))
     = Message "Processing video...".
Proof.
  unfold screen, showsVideo, emptyMessage.
  cbn [playerProps url isLoadingVideo videoError uploadVideo_begin
         uploadVideo_failed vidUrl app_isLoadingVideo app_videoError].
  rewrite andb_false_r. repeat split; reflexivity.
Qed.

Section Timecodes.

Variable timeToSecs : string -> num.

Lemma cleanEntries_spec (l l' : list Timecode) :
  cleanEntries l = Some l' ->
  map time l' = map time l
  /\ map value l' = map value l
  /\ map objects l' = map objects l
  /\ map text l'
     = map (fun t => option_map unescapeApostrophes (text t)) l
  /\ Forall (fun t => text t <> None) l.
Proof.
  revert l'. induction l as [|t l IH]; intros l' H; simpl in H.
  - injection H as <-. repeat split; constructor.
  - unfold cleanEntry in H. destruct (text t) as [x|] eqn:T; [|discriminate].
    destruct (cleanEntries l) as [r|]; [|discriminate].
    injection H as <-. destruct (IH r eq_refl) as (A & B & C & D & F).
    simpl. rewrite A, B, C, D, T. repeat split.
    constructor; [congruence | assumption].
Qed.

Lemma cleanEntries_throws (l : list Timecode) :
  cleanEntries l = None <-> exists t, In t l /\ text t = None.
Proof.
  induction l as [|t l IH]; simpl.
  - split; [discriminate | intros (t & [] & _)].
  - unfold cleanEntry. destruct (text t) as [x|] eqn:T.
    + destruct (cleanEntries l) as [r|].
      * split; [discriminate|]. intros (t' & [<-|I] & N); [congruence|].
        assert (Z : Some r = None) by (apply IH; eauto). discriminate Z.
      * split; auto. intros _. destruct (proj1 IH eq_refl) as (t' & I & N).
        eauto.
    + split; auto. intros _. exists t. auto.
Qed.

Lemma ascending_by_times (l l' : list Timecode) :
  map time l' = map time l ->
  ascending timeToSecs l -> ascending timeToSecs l'.
Proof.
  unfold ascending. revert l'.
  induction l as [|t l IH]; intros [|t' l'] M S; try discriminate;
    [constructor|].
  simpl in M. injection M as T M.
  inversion S as [|? ? S' H]; subst. constructor; [now apply IH|].
  destruct l as [|t2 l], l' as [|t2' l']; try discriminate; constructor.
  simpl in M. injection M as T2 _. inversion H; subst.
  unfold secs in *. now rewrite T, T2.
Qed.

(** X16.  [setTimecodes] touches nothing but the texts.  It throws
    exactly when an entry has no text, and then sets no state.
    Otherwise the list it stores has the entries of the list it was
    given, in the same order, with the same times, values and objects,
    the text of each cleaned of its backslashes before apostrophes; an
    ascending list stays ascending, and the url and the seek request of
    the host are left alone. *)
Theorem setTimecodes_keeps_entries (timecodes : list Timecode) (a : App) :
  (setTimecodes timecodes a = None <->
   exists t, In t timecodes /\ text t = None)
  /\ (forall a', setTimecodes timecodes a = Some a' ->
        exists l,
          app_timecodeList a' = Some l
          /\ map time l = map time timecodes
          /\ map value l = map value timecodes
          /\ map objects l = map objects timecodes
          /\ map text l
             = map (fun t => option_map unescapeApostrophes (text t))
                 timecodes
          /\ (ascending timeToSecs timecodes -> ascending timeToSecs l)
          /\ vidUrl a' = vidUrl a
          /\ app_seekOperation a' = app_seekOperation a).
Proof.
  unfold setTimecodes. split.
  - rewrite <- cleanEntries_throws.
    destruct (cleanEntries timecodes); split; congruence.
  - intros a' H. destruct (cleanEntries timecodes) as [l|] eqn:C;
      [|discriminate].
    injection H as <-. exists l.
    destruct (cleanEntries_spec _ C) as (T & V & O & X & _).
    repeat split; auto. now apply ascending_by_times.
Qed.

End Timecodes.

(** ** The texts *)

Lemma unescapeApostrophes_eq (b : ascii) (s : string) :
  unescapeApostrophes (String b s)
  = match s with
    | String q rest =>
        if Ascii.eqb b "\"%char && Ascii.eqb q "'"%char
        then String "'"%char (unescapeApostrophes rest)
        else String b (unescapeApostrophes s)
    | EmptyString => String b EmptyString
    end.
Proof. destruct s; reflexivity. Qed.

Lemma withoutBackslashes_length (s : string) :
  (String.length (withoutBackslashes s) <= String.length s)%nat.
Proof.
  induction s as [|c s IH]; simpl; [lia|].
  destruct (Ascii.eqb c "\"%char); simpl; lia.
Qed.

Lemma unescapeApostrophes_facts (n : nat) (s : string) :
  (String.length s <= n)%nat ->
  withoutBackslashes (unescapeApostrophes s) = withoutBackslashes s
  /\ (String.length (unescapeApostrophes s) <= String.length s)%nat
  /\ (withoutBackslashes s = s -> unescapeApostrophes s = s).
Proof.
  revert s. induction n as [|n IH]; intros [|b s] L; simpl in L;
    try lia; try (repeat split; reflexivity).
  rewrite unescapeApostrophes_eq. destruct s as [|q rest].
  - repeat split; auto.
  - destruct (Ascii.eqb b "\"%char && Ascii.eqb q "'"%char) eqn:M.
    + apply andb_true_iff in M. destruct M as [B Q].
      apply Ascii.eqb_eq in B. apply Ascii.eqb_eq in Q. subst b q.
      destruct (IH rest) as (W & Le & _); [simpl in L; lia|].
      split; [|split].
      * simpl. now rewrite W.
      * simpl. lia.
      * intros H. simpl in H. exfalso.
        pose proof (withoutBackslashes_length rest) as K.
        apply (f_equal String.length) in H. simpl in H. lia.
    + destruct (IH (String q rest)) as (W & Le & Id); [lia|].
      split; [|split].
      * cbn [withoutBackslashes]. fold (withoutBackslashes
                                          (unescapeApostrophes
                                             (String q rest))).
        now rewrite W.
      * cbn [String.length] in Le |- *. apply le_n_S. exact Le.
      * intros H. cbn [withoutBackslashes] in H.
        destruct (Ascii.eqb b "\"%char) eqn:B.
        -- exfalso.
           pose proof (withoutBackslashes_length (String q rest)) as K.
           apply (f_equal String.length) in H.
           cbn [String.length withoutBackslashes] in H, K. lia.
        -- injection H as H. now rewrite (Id H).
Qed.

(** X17.  Cleaning a text removes backslashes and nothing else: the
    characters other than backslashes are those of the text, in order;
    the text does not get longer; and a text without a backslash is left
    as it is. *)
Theorem unescapeApostrophes_removes_backslashes (s : string) :
  withoutBackslashes (unescapeApostrophes s) = withoutBackslashes s
  /\ (String.length (unescapeApostrophes s) <= String.length s)%nat
  /\ (withoutBackslashes s = s -> unescapeApostrophes s = s).
Proof. apply (unescapeApostrophes_facts (n := String.length s)). lia. Qed.

(** ** The overlays *)

(** X18.  The bounding boxes follow the objects of the annotation: there
    is one slot for each object, at the index of the object, empty when
    the object has no [box_2d], so that an object without a box takes
    nothing from the others; the boxes that reach the page carry, in
    order, the names of the objects that have a box.  Without an
    annotation there is none. *)
Theorem boundingBoxes_follow_objects (t : Timecode)
  (l : list DetectedObject) :
  objects t = Some l ->
  List.length (boundingBoxes (Some t)) = List.length l
  /\ (forall i obj, nth_error l i = Some obj ->
        nth_error (boundingBoxes (Some t)) i = Some (boundingBox obj))
  /\ map box_label (renderedBoxes (boundingBoxes (Some t)))
     = map obj_name
         (filter (fun o => match box_2d o with
                           | Some _ => true
                           | None => false
                           end) l)
  /\ boundingBoxes None = [].
Proof.
  intros O. unfold boundingBoxes. rewrite O. split; [|split; [|split]].
  - apply length_map.
  - intros i obj N. now apply map_nth_error.
  - clear O. induction l as [|o l IH]; [reflexivity|].
    cbn [map filter]. unfold boundingBox at 1.
    destruct (box_2d o) as [[[[ymin xmin] ymax] xmax]|];
      cbn [renderedBoxes map box_label]; now rewrite IH.
  - reflexivity.
Qed.

Lemma Qc_percent_range (x : Qc) :
  (0 <= x)%Qc -> (x <= 1)%Qc ->
  (0 <= x * Q2Qc 100)%Qc /\ (x * Q2Qc 100 <= Q2Qc 100)%Qc.
Proof.
  intros H0 H1.
  assert (P : (0 <= Q2Qc 100)%Qc) by (unfold Qcle; simpl; discriminate).
  split.
  - rewrite <- (Qcmult_0_l (Q2Qc 100)). now apply Qcmult_le_compat_r.
  - rewrite <- (Qcmult_1_l (Q2Qc 100)) at 2. now apply Qcmult_le_compat_r.
Qed.

Lemma Qc_difference_range (x y : Qc) :
  (0 <= x)%Qc -> (x <= y)%Qc -> (y <= 1)%Qc ->
  (0 <= y - x)%Qc /\ (y - x <= 1)%Qc.
Proof.
  intros H0 H1 H2. split.
  - unfold Qcminus. now apply (proj1 (Qcle_minus_iff x y)).
  - apply Qcle_trans with y; [|exact H2].
    apply (proj2 (Qcle_minus_iff (y - x) y)).
    replace (y + - (y - x))%Qc with x by ring. exact H0.
Qed.

(** X19.  A box whose corners are in the unit square, given as
    [[ymin, xmin, ymax, xmax]] with [ymin <= ymax] and [xmin <= xmax],
    has a top, a left, a height and a width that are each between [0]
    and a hundred per cent.  Nothing is said of top plus height and of
    left plus width: they are at most a hundred in exact arithmetic
    only, the products of the source being rounded. *)
Theorem box_inside_stage (obj : DetectedObject) (ymin xmin ymax xmax : Qc) :
  box_2d obj = Some (JS.Fin ymin, JS.Fin xmin, JS.Fin ymax, JS.Fin xmax) ->
  (0 <= ymin)%Qc -> (ymin <= ymax)%Qc -> (ymax <= 1)%Qc ->
  (0 <= xmin)%Qc -> (xmin <= xmax)%Qc -> (xmax <= 1)%Qc ->
  exists b,
    boundingBox obj = Some b
    /\ box_label b = obj_name obj
    /\ (JS.le JS.zero (box_top b) = true
        /\ JS.le (box_top b) (JS.of_Z 100) = true)
    /\ (JS.le JS.zero (box_height b) = true
        /\ JS.le (box_height b) (JS.of_Z 100) = true)
    /\ (JS.le JS.zero (box_left b) = true
        /\ JS.le (box_left b) (JS.of_Z 100) = true)
    /\ (JS.le JS.zero (box_width b) = true
        /\ JS.le (box_width b) (JS.of_Z 100) = true).
Proof.
  intros B Y0 Y1 Y2 X0 X1 X2. unfold boundingBox. rewrite B.
  eexists. split; [reflexivity|]. cbn [box_label box_top box_height
                                         box_left box_width].
  destruct (Qc_difference_range Y0 Y1 Y2) as (Dy0 & Dy1).
  destruct (Qc_difference_range X0 X1 X2) as (Dx0 & Dx1).
  pose proof (Qc_percent_range Y0 (Qcle_trans _ _ _ Y1 Y2)) as T.
  pose proof (Qc_percent_range X0 (Qcle_trans _ _ _ X1 X2)) as L.
  pose proof (Qc_percent_range Dy0 Dy1) as H.
  pose proof (Qc_percent_range Dx0 Dx1) as W.
  unfold JS.zero, JS.of_Z. cbn [JS.mul JSArith.sub JS.le].
  rewrite !JSFacts.Qc_leb_le. repeat split;
    first [apply T | apply L | apply H | apply W].
Qed.

(** ** The time display and the markers *)

Section Display.

Variable timeToSecs : string -> num.

(** X20.  [currentSecs], the time the player displays, is never [NaN],
    whatever the state; with a finite duration that is not negative and
    a scrub fraction between [0] and [1] it is a time between [0] and
    the duration. *)
Theorem currentSecs_guarded (s : PlayerState) :
  JSArith.isNaN (currentSecs s) = false
  /\ (forall d f : Qc,
        duration s = JS.Fin d -> scrubberTime s = JS.Fin f ->
        (0 <= d)%Qc -> (0 <= f)%Qc -> (f <= 1)%Qc ->
        JS.le JS.zero (currentSecs s) = true
        /\ JS.le (currentSecs s) (duration s) = true).
Proof.
  unfold currentSecs, JS.or. split.
  - destruct (JS.truthy (JS.mul (duration s) (scrubberTime s))) eqn:T;
      [|reflexivity].
    destruct (JS.mul (duration s) (scrubberTime s)); try reflexivity.
    discriminate T.
  - intros d f -> -> D F0 F1. cbn [JS.mul JS.truthy].
    assert (L0 : (0 <= d * f)%Qc).
    { rewrite <- (Qcmult_0_l f). now apply Qcmult_le_compat_r. }
    assert (L1 : (d * f <= d)%Qc).
    { rewrite <- (Qcmult_1_r d) at 2. rewrite !(Qcmult_comm d).
      now apply Qcmult_le_compat_r. }
    destruct (JS.Qc_eqb (d * f) 0) eqn:Z; cbn [negb].
    + unfold JS.zero, JS.of_Z. cbn [JS.le]. rewrite !JSFacts.Qc_leb_le.
      split; [apply Qcle_refl | exact D].
    + unfold JS.zero, JS.of_Z. cbn [JS.le]. rewrite !JSFacts.Qc_leb_le.
      split; assumption.
Qed.

(** X21.  The marker of an entry is on the time line once the duration
    is known: with a positive duration and a finite time of the entry
    between [0] and the duration, its position is between [0] and a
    hundred per cent.  With the duration [0] the player starts with, the
    position of no entry of a time that is not negative is one of the
    time line: it is [NaN] or infinite. *)
Theorem marker_position (t : Timecode) (s : PlayerState) :
  (JS.lt JS.zero (duration s) = true ->
   JS.le JS.zero (secs timeToSecs t) = true ->
   JS.le (secs timeToSecs t) (duration s) = true ->
   JS.lt (secs timeToSecs t) JS.PosInf = true ->
   JS.le JS.zero (markerPct timeToSecs t s) = true
   /\ JS.le (markerPct timeToSecs t s) (JS.of_Z 100) = true)
  /\ (duration s = JS.zero ->
      JS.le JS.zero (secs timeToSecs t) = true ->
      JS.lt (secs timeToSecs t) JS.PosInf = true ->
      JS.le (markerPct timeToSecs t s) (JS.of_Z 100) = false
      /\ (markerPct timeToSecs t s = JS.NaN
          \/ markerPct timeToSecs t s = JS.PosInf)).
Proof.
  unfold markerPct. split.
  - intros D H0 H1 F.
    destruct (div_range _ _ D H0 H1 F) as [L0 L1].
    destruct (JS.div (secs timeToSecs t) (duration s)) as [q| | |];
      try discriminate.
    unfold JS.zero, JS.one, JS.of_Z in L0, L1 |- *.
    cbn [JS.mul JS.le] in L0, L1 |- *.
    rewrite JSFacts.Qc_leb_le in L0, L1. rewrite !JSFacts.Qc_leb_le.
    change (Q2Qc (inject_Z 0)) with 0%Qc in *.
    change (Q2Qc (inject_Z 1)) with 1%Qc in *.
    change (Q2Qc (inject_Z 100)) with (Q2Qc 100).
    assert (P : (0 <= Q2Qc 100)%Qc) by (unfold Qcle; simpl; discriminate).
    split.
    + rewrite <- (Qcmult_0_l (Q2Qc 100)). now apply Qcmult_le_compat_r.
    + rewrite <- (Qcmult_1_l (Q2Qc 100)) at 2.
      now apply Qcmult_le_compat_r.
  - intros -> H0 F.
    destruct (secs timeToSecs t) as [x| | |]; try discriminate.
    unfold JS.zero, JS.of_Z in *. cbn [JS.div JS.le] in *.
    change (JS.Qc_eqb (Q2Qc (inject_Z 0)) 0) with true. cbn iota.
    destruct (JS.Qc_eqb x 0) eqn:Z.
    + split; [reflexivity | now left].
    + assert (S : JS.sign (JS.Fin x) = 1%Z).
      { cbn [JS.sign]. rewrite Z.
        destruct (JS.Qc_ltb x 0) eqn:Lt; [|reflexivity].
        apply JSFacts.Qc_ltb_lt in Lt. apply JSFacts.Qc_leb_le in H0.
        exfalso. now apply (Qcle_not_lt _ _ H0). }
      rewrite S. split; [reflexivity | now right].
Qed.

End Display.

(** ** The format of a time *)

Lemma Qfloor_div_60 (q : Q) :
  Qfloor (q / inject_Z 60) = (Qfloor q / 60)%Z.
Proof.
  destruct q as [n d]. unfold Qdiv, Qmult, Qinv, Qfloor, inject_Z.
  cbn [Qnum Qden]. rewrite Z.mul_1_r, Pos2Z.inj_mul.
  symmetry. apply Z.div_div; lia.
Qed.

Lemma Qfloor_minus_int (q : Q) (k : Z) :
  Qfloor (q - inject_Z k) = (Qfloor q - k)%Z.
Proof.
  destruct q as [n d]. unfold Qminus, Qplus, Qopp, Qfloor, inject_Z.
  cbn [Qnum Qden]. rewrite Z.mul_1_r, Pos.mul_1_r.
  rewrite Z.div_add by lia. lia.
Qed.

Lemma this_of_int (z : Z) : this (JSArith.of_int z) = inject_Z z.
Proof.
  unfold JSArith.of_int, Q2Qc. cbn [this]. apply Qred_identity.
  cbn [inject_Z Qnum Qden]. apply Z.gcd_1_r.
Qed.

Lemma toString_of_int (z : Z) :
  (Z.abs z < 2 ^ 53)%Z ->
  JSArith.toString (JS.Fin (JSArith.of_int z)) = Some (JSArith.digits z).
Proof.
  intros B. unfold JSArith.toString. rewrite this_of_int.
  cbn [inject_Z Qnum Qden]. rewrite Pos.eqb_refl.
  apply Z.ltb_lt in B. now rewrite B.
Qed.

Lemma two_digits (k : Z) :
  (0 <= k < 60)%Z ->
  String.length (JSArith.padStart 2 "0"%char (JSArith.digits k)) = 2%nat.
Proof.
  intros B.
  assert (F : forallb
                (fun n => Nat.eqb
                            (String.length
                               (JSArith.padStart 2 "0"%char
                                  (JSArith.digits (Z.of_nat n)))) 2)
                (seq 0 60) = true) by (vm_compute; reflexivity).
  rewrite forallb_forall in F.
  specialize (F (Z.to_nat k)). rewrite Z2Nat.id in F by lia.
  apply Nat.eqb_eq, F, in_seq. lia.
Qed.

Lemma this_div_60 (t : Qc) :
  this (t / Q2Qc (inject_Z 60))%Qc == this t / inject_Z 60.
Proof.
  unfold Qcdiv, Qcmult, Qcinv, Q2Qc. cbn [this].
  rewrite !Qred_correct. reflexivity.
Qed.

Lemma this_minus_multiple (t : Qc) (m : Z) :
  this (t - Q2Qc (inject_Z 60) * JSArith.of_int m)%Qc
  == this t - inject_Z (60 * m).
Proof.
  unfold Qcminus, Qcplus, Qcopp, Qcmult, Q2Qc. cbn [this].
  rewrite !Qred_correct, this_of_int, inject_Z_mult. reflexivity.
Qed.

Lemma Qfloor_nonneg (t : Qc) : (0 <= t)%Qc -> (0 <= Qfloor t)%Z.
Proof.
  intros H. change 0%Z with (Qfloor 0). now apply Qfloor_resp_le.
Qed.

(** X22.  [formatTime] of a finite time that is not negative, of whole
    seconds below [2^53], shows the whole seconds of it as minutes and
    seconds: the whole seconds divided by sixty, a colon, and the
    remainder on exactly two digits.  Where the duration is not known it
    shows [NaN:NaN]. *)
Theorem formatTime_minutes_seconds (t : Qc) :
  (0 <= t)%Qc ->
  (Qfloor t < 2 ^ 53)%Z ->
  let seconds :=
    JSArith.padStart 2 "0"%char (JSArith.digits (Qfloor t mod 60)) in
  formatTime (JS.Fin t)
  = Some (JSArith.digits (Qfloor t / 60) ++ ":" ++ seconds)%string
  /\ String.length seconds = 2%nat
  /\ formatTime JS.NaN = Some "NaN:NaN"%string.
Proof.
  intros T B seconds. subst seconds.
  pose proof (Qfloor_nonneg T) as W.
  assert (M : (0 <= Qfloor t mod 60 < 60)%Z) by (apply Z.mod_pos_bound; lia).
  assert (Dv : (0 <= Qfloor t / 60 <= Qfloor t)%Z).
  { split; [apply Z.div_pos; lia|]. apply Z.div_le_upper_bound; lia. }
  assert (F1 : Qfloor (t / Q2Qc (inject_Z 60))%Qc = (Qfloor t / 60)%Z).
  { rewrite this_div_60. apply Qfloor_div_60. }
  assert (Tr : JSArith.trunc (t / Q2Qc (inject_Z 60))%Qc
               = (Qfloor t / 60)%Z).
  { unfold JSArith.trunc.
    replace (Qle_bool 0 (t / Q2Qc (inject_Z 60))%Qc) with true; [exact F1|].
    symmetry. apply Qle_bool_iff. rewrite this_div_60.
    apply Qle_shift_div_l; [reflexivity|]. rewrite Qmult_0_l. exact T. }
  assert (F2 : Qfloor (t - Q2Qc (inject_Z 60)
                           * JSArith.of_int (Qfloor t / 60))%Qc
               = (Qfloor t mod 60)%Z).
  { rewrite this_minus_multiple, Qfloor_minus_int.
    rewrite Z.mod_eq by lia. reflexivity. }
  split; [|split; [now apply two_digits | reflexivity]].
  unfold formatTime, JS.of_Z. cbn [JSArith.wholePartExact].
  replace (Z.abs (Qfloor t) <? 2 ^ 53)%Z with true
    by (symmetry; apply Z.ltb_lt; rewrite Z.abs_eq by lia; exact B).
  cbn [JS.div JSArith.rem].
  change (JS.Qc_eqb (Q2Qc (inject_Z 60)) 0) with false. cbn iota.
  cbn [JSArith.floor]. rewrite Tr, F1, F2.
  rewrite !toString_of_int; [reflexivity | |].
  - rewrite Z.abs_eq by lia. lia.
  - rewrite Z.abs_eq by lia. lia.
Qed.

(** ** Renders and drags as a whole *)

(** X23.  A render settles: whatever the instance and the props, once
    the component has rendered, rendering again with the same props
    changes nothing and issues no command, so that no effect runs twice
    for one change and the effect that sets state on a change of url
    starts no loop. *)
Theorem render_idempotent (p : Props) (c : Instance) :
  render p (fst (render p c)) = (fst (render p c), []).
Proof. apply render_settled, render_settles. Qed.

Section Drag.

Variable timeToSecs : string -> num.

Lemma updateTime_while_scrubbing (p : Props) (dom : Dom)
  (s : PlayerState) (el : nat) :
  video s = Some el ->
  isScrubbing s = true ->
  let s' := stateOf (updateTime timeToSecs p dom s) in
  commandsOf (updateTime timeToSecs p dom s) = []
  /\ scrubberTime s' = scrubberTime s /\ isScrubbing s' = true
  /\ video s' = Some el /\ volume s' = volume s /\ isMuted s' = isMuted s
  /\ playbackRate s' = playbackRate s.
Proof.
  intros V Sc. unfold updateTime, timecodeListReversed. rewrite V, Sc.
  cbn [negb]. destruct (timecodeList p) as [l|]; cbn [option_map];
    try destruct (rev l); cbn [stateOf commandsOf];
    repeat split; auto.
Qed.

Lemma time_updates_while_scrubbing (p : Props) (origin : string)
  (doms : list Dom) (c : Instance) (el : nat) :
  settled p c ->
  video (state c) = Some el ->
  isScrubbing (state c) = true ->
  let after := dispatchAll timeToSecs p (timeUpdates origin doms) c in
  settled p (fst after)
  /\ video (state (fst after)) = Some el
  /\ isScrubbing (state (fst after)) = true
  /\ scrubberTime (state (fst after)) = scrubberTime (state c)
  /\ snd after = [].
Proof.
  revert c. induction doms as [|dom doms IH]; intros c St V Sc.
  - simpl. repeat split; auto; apply St.
  - cbn [timeUpdates map dispatchAll]. fold (timeUpdates origin doms).
    pose proof (dispatch_settles timeToSecs dom (TimeUpdate origin) St)
      as St1.
    pose proof (dispatch_settled timeToSecs dom (TimeUpdate origin) St)
      as E.
    cbn [handle] in E.
    destruct (updateTime_while_scrubbing p dom (state c) V Sc)
      as (K & T1 & Sc1 & V1 & Vo & Mu & Ra).
    rewrite K, Vo, Mu, Ra in E. revert E. same_deps. cbn [andb app].
    intros E.
    destruct (dispatch timeToSecs p dom (TimeUpdate origin) c) as [c1 k1].
    injection E as -> ->. cbn [fst] in St1.
    specialize (IH _ St1 V1 Sc1). cbn [state] in IH.
    destruct (dispatchAll timeToSecs p (timeUpdates origin doms) _)
      as [c2 k2].
    cbn [fst snd] in *. destruct IH as (A & B & C & D & F).
    rewrite D, T1, F. split; [exact A|]. repeat split; auto.
Qed.

(** X24.  A drag holds the scrub fraction against the clock.  After the
    pointer has gone down and the control has moved to a value, any
    number of time updates, whatever the times they report, leave the
    fraction at that value and issue no command; after the pointer has
    gone up, the first time update puts the fraction back to the time of
    the element over its duration. *)
Theorem drag_holds_fraction (p : Props) (dom : Dom) (c : Instance)
  (el : nat) (v : num) (origin : string) (doms : list Dom) (last : Dom) :
  settled p c ->
  video (state c) = Some el ->
  let moved :=
    fst (dispatch timeToSecs p dom (ScrubChange v)
           (fst (dispatch timeToSecs p dom ScrubPointerDown c))) in
  let held := dispatchAll timeToSecs p (timeUpdates origin doms) moved in
  let released :=
    fst (dispatch timeToSecs p dom ScrubPointerUp (fst held)) in
  let resumed := dispatch timeToSecs p last (TimeUpdate origin) released in
  (scrubberTime (state (fst held)) = v /\ snd held = [])
  /\ scrubberTime (state (fst resumed))
     = JS.div (el_currentTime last) (el_duration last).
Proof.
  intros St V moved held released resumed.
  pose proof (dispatch_settles timeToSecs dom ScrubPointerDown St) as St1.
  pose proof (dispatch_settles timeToSecs dom (ScrubChange v) St1) as St2.
  fold moved in St2.
  assert (M : video (state moved) = Some el
              /\ isScrubbing (state moved) = true
              /\ scrubberTime (state moved) = v).
  { subst moved. rewrite (dispatch_settled timeToSecs dom _ St1).
    rewrite (dispatch_settled timeToSecs dom _ St).
    cbn [fst state handle stateOf]. unfold scrubChange, scrubPointerDown.
    cbn [setIsScrubbing video]. rewrite V.
    cbn [stateOf setScrubberTime setIsScrubbing video isScrubbing
           scrubberTime].
    repeat split; auto. }
  destruct M as (V2 & Sc2 & T2).
  destruct (time_updates_while_scrubbing origin doms St2 V2 Sc2)
    as (St3 & V3 & Sc3 & T3 & K3).
  fold held in St3, V3, Sc3, T3, K3.
  split; [split; [congruence | exact K3]|].
  pose proof (dispatch_settles timeToSecs dom ScrubPointerUp St3) as St4.
  fold released in St4.
  subst resumed. rewrite (dispatch_settled timeToSecs last _ St4).
  cbn [fst state handle].
  assert (R : video (state released) = Some el
              /\ isScrubbing (state released) = false).
  { subst released. rewrite (dispatch_settled timeToSecs dom _ St3).
    cbn [fst state handle stateOf]. unfold scrubPointerUp.
    cbn [setIsScrubbing video isScrubbing]. auto. }
  destruct R as (V5 & Sc5).
  unfold updateTime, timecodeListReversed. rewrite V5, Sc5. cbn [negb].
  destruct (timecodeList p) as [l|]; cbn [option_map];
    try destruct (rev l); reflexivity.
Qed.

End Drag.

(** ** The further properties at the scenarios *)

Import MoreScenarios.

Lemma annotation_monotone_witness :
  exists e2,
    currentData (stateOf (updateTime Utils.timeToSecs props3 (at_time 12)
                            attached)) = Some e2
    /\ JS.le (secs Utils.timeToSecs (entry "0:05"))
         (secs Utils.timeToSecs e2) = true.
Proof.
  refine (@annotation_monotone Utils.timeToSecs props3 (at_time 7)
            (at_time 12) attached list3 0%nat (entry "0:05") _ _ _ _ _).
  - reflexivity.
  - reflexivity.
  - repeat constructor.
  - reflexivity.
  - reflexivity.
Defined.

Lemma annotation_at_entry_time_witness :
  currentData (stateOf (updateTime Utils.timeToSecs props3 (at_time 10)
                          attached)) = Some (entry "0:10").
Proof.
  refine (proj2 (@annotation_at_entry_time Utils.timeToSecs props3
                   (at_time 10) attached list3 0%nat (entry "0:10")
                   _ _ _ _ _ _) _).
  - reflexivity.
  - reflexivity.
  - repeat constructor.
  - simpl. auto.
  - reflexivity.
  - reflexivity.
  - intros x [<-|[<-|[<-|[]]]] H; first [reflexivity | discriminate H].
Defined.

Lemma time_update_frame_witness :
  snd (dispatch Utils.timeToSecs props3 (at_time 12) (TimeUpdate "a.mp4")
         loaded) = [].
Proof.
  refine (proj1 (@time_update_frame Utils.timeToSecs props3 (at_time 12)
                   loaded "a.mp4"%string _)).
  split; reflexivity.
Defined.

Lemma marker_click_seeks_witness :
  snd (render
         (playerProps
            (jumpToTimecode 100 (secs Utils.timeToSecs (entry "0:10"))
               app_list))
         (fst (dispatch Utils.timeToSecs (playerProps app_list) (at_time 3)
                 (MarkerClick 1) player_list)))
  = [SetCurrentTime (secs Utils.timeToSecs (entry "0:10"))].
Proof.
  refine (proj2 (proj2
            (@marker_click_seeks Utils.timeToSecs app_list (at_time 3)
               player_list 0%nat list3 1%nat (entry "0:10") 100
               _ _ _ _ _))).
  - exact I.
  - split; reflexivity.
  - reflexivity.
  - reflexivity.
  - reflexivity.
Defined.

Lemma volume_slider_witness :
  effectiveVolume
    (state (fst (dispatch Utils.timeToSecs props3 (at_time 12)
                   (VolumeChange (JS.of_Q (2 # 5))) loaded)))
  = JS.of_Q (2 # 5).
Proof.
  refine (proj1 (proj2 (proj2
            (@volume_slider Utils.timeToSecs props3 (at_time 12) loaded
               0%nat (JS.of_Q (2 # 5)) _ _)))).
  - split; reflexivity.
  - reflexivity.
Defined.

Lemma unmute_after_slider_at_zero_witness :
  snd (dispatch Utils.timeToSecs props3 (at_time 12) MuteClick
         (fst (dispatch Utils.timeToSecs props3 (at_time 12)
                 (VolumeChange JS.zero) loaded)))
  = [SetVolume JS.zero].
Proof.
  refine (proj2 (proj2 (proj2 (proj2 (proj2
            (@unmute_after_slider_at_zero Utils.timeToSecs props3
               (at_time 12) loaded 0%nat _ _)))))).
  - split; reflexivity.
  - reflexivity.
Defined.

Lemma fullscreen_follows_document_witness :
  snd (dispatch Utils.timeToSecs props3 (at_time 12) FullscreenClick loaded)
  = [RequestFullscreen].
Proof.
  refine (proj1 (@fullscreen_follows_document Utils.timeToSecs props3
                   (at_time 12) loaded _)).
  split; reflexivity.
Defined.

Lemma speed_click_writes_rate_witness :
  In (playbackRate
        (state (fst (dispatch Utils.timeToSecs props3 (at_time 12)
                       SpeedClick loaded)))) rates.
Proof.
  refine (proj1 (@speed_click_writes_rate Utils.timeToSecs props3
                   (at_time 12) loaded 0%nat _ _)).
  - split; reflexivity.
  - reflexivity.
Defined.

Lemma playbackRate_in_rates_witness :
  In (playbackRate (state cycled)) rates.
Proof.
  refine (@playbackRate_in_rates Utils.timeToSecs props_b cycled _).
  unfold cycled, loaded, mounted.
  apply reach_event. apply reach_render with (p := props3).
  apply reach_event. apply reach_event. apply reach_event.
  apply reach_mount.
Defined.

Example cycled_rates :
  playbackRate
    (state (fst (dispatch Utils.timeToSecs props3 (at_time 12) SpeedClick
                   (fst (dispatch Utils.timeToSecs props3 (at_time 12)
                           SpeedClick loaded)))))
  = JS.of_Z 2
  /\ playbackRate (state cycled) = JS.of_Q (3 # 2).
Proof. split; reflexivity. Qed.

Lemma volume_is_kept_witness :
  volume (state (fst (render props_b quiet))) = volume (state quiet)
  /\ isMuted (state (fst (render props_b quiet))) = isMuted (state quiet).
Proof.
  refine (proj1 (@volume_is_kept Utils.timeToSecs props3 props_b
                   (at_time 12) quiet _)).
  split; reflexivity.
Defined.

Lemma space_without_video_throws_witness :
  video (state player_empty) = None
  /\ handle Utils.timeToSecs (playerProps initialApp) (at_time 0)
       (KeyPress (space_on plain_div)) (state player_empty)
     = Threw (state player_empty) []
  /\ state (fst (dispatch Utils.timeToSecs (playerProps initialApp)
                   (at_time 0) (KeyPress (space_on plain_div))
                   player_empty))
     = state player_empty
  /\ snd (dispatch Utils.timeToSecs (playerProps initialApp) (at_time 0)
            (KeyPress (space_on plain_div)) player_empty) = [].
Proof.
  refine (@space_without_video_throws Utils.timeToSecs
            (playerProps initialApp) (at_time 0) player_empty
            (space_on plain_div) _ _ _).
  - apply reach_mount.
  - reflexivity.
  - reflexivity.
Defined.

Lemma first_render_witness :
  video (state (fst (render props3 unmounted))) = Some 0%nat
  /\ snd (render props3 unmounted)
     = match seekOperation props3 with
       | Some op => [SetCurrentTime (so_time op)]
       | None => []
       end ++ [SetVolume JS.one; SetPlaybackRate JS.one].
Proof.
  refine (proj1 (first_render props3) _). reflexivity.
Defined.

Lemma another_video_witness :
  let a1 := uploadVideo_begin "b.mp4" app_jumped in
  let r1 := render (playerProps a1) player_tuned in
  let a2 := uploadVideo_done a1 in
  let r2 := render (playerProps a2) (fst r1) in
  (screen (playerProps a2) = Stage
   /\ video (state (fst r2)) = Some (nextElement player_tuned)
   /\ scrubberTime (state (fst r2)) = JS.zero
   /\ isPlaying (state (fst r2)) = false
   /\ playbackRate (state (fst r2)) = JS.one
   /\ currentData (state (fst r2)) = None
   /\ volume (state (fst r2)) = volume (state player_tuned)
   /\ isMuted (state (fst r2)) = isMuted (state player_tuned)
   /\ duration (state (fst r2)) = duration (state player_tuned))
  /\ snd r2
     = match app_seekOperation app_jumped with
       | Some op => [SetCurrentTime (so_time op)]
       | None => []
       end ++ [SetVolume (effectiveVolume (state player_tuned));
               SetPlaybackRate JS.one].
Proof.
  refine (proj2
            (@another_video Utils.timeToSecs app_jumped player_tuned
               "b.mp4"%string _ _ _ _)).
  - unfold player_tuned, player_a.
    apply reach_event. apply reach_event. apply reach_event.
    apply reach_render with (p := playerProps app_a).
    apply reach_render with (p := playerProps
                                    (uploadVideo_begin "a.mp4" initialApp)).
    apply reach_render with (p := playerProps initialApp).
    apply reach_mount.
  - reflexivity.
  - discriminate.
  - simpl. discriminate.
Defined.

Example another_video_tuned :
  let a1 := uploadVideo_begin "b.mp4" app_jumped in
  let r1 := render (playerProps a1) player_tuned in
  let r2 := render (playerProps (uploadVideo_done a1)) (fst r1) in
  (volume (state player_tuned) = JS.of_Q (2 # 5)
   /\ isMuted (state player_tuned) = true
   /\ playbackRate (state player_tuned) = JS.of_Q (3 # 2))
  /\ (volume (state (fst r2)) = JS.of_Q (2 # 5)
      /\ isMuted (state (fst r2)) = true
      /\ playbackRate (state (fst r2)) = JS.one)
  /\ snd r2
     = [SetCurrentTime (JS.of_Z 30); SetVolume JS.zero;
        SetPlaybackRate JS.one].
Proof. repeat split; reflexivity. Qed.

Lemma error_message_unreachable_witness :
  screen (playerProps app_failed) <> Message "Error processing video.".
Proof.
  refine (proj1 (@error_message_unreachable 0 app_failed _)).
  unfold app_failed. apply run_upload_failed. apply run_drop.
  - apply run_start.
  - discriminate.
Defined.

Lemma setTimecodes_keeps_entries_witness :
  exists l,
    app_timecodeList (setTimecodeList
                        [{| time := "0:05"; text := Some "it's here"%string;
                            value := None; objects := None |}] app_a)
    = Some l
    /\ map time l = map time [quoted]
    /\ map value l = map value [quoted]
    /\ map objects l = map objects [quoted]
    /\ map text l
       = map (fun t => option_map unescapeApostrophes (text t)) [quoted]
    /\ (ascending Utils.timeToSecs [quoted] -> ascending Utils.timeToSecs l)
    /\ vidUrl (setTimecodeList
                 [{| time := "0:05"; text := Some "it's here"%string;
                     value := None; objects := None |}] app_a)
       = vidUrl app_a
    /\ app_seekOperation
         (setTimecodeList
            [{| time := "0:05"; text := Some "it's here"%string;
                value := None; objects := None |}] app_a)
       = app_seekOperation app_a.
Proof.
  refine (proj2 (@setTimecodes_keeps_entries Utils.timeToSecs [quoted]
                   app_a) _ _).
  reflexivity.
Defined.

Lemma unescapeApostrophes_removes_backslashes_witness :
  unescapeApostrophes "a cat" = "a cat"%string.
Proof.
  refine (proj2 (proj2 (unescapeApostrophes_removes_backslashes "a cat")) _).
  reflexivity.
Defined.

Example unescape_quoted :
  unescapeApostrophes "it\'s here" = "it's here"%string.
Proof. reflexivity. Qed.

Lemma boundingBoxes_follow_objects_witness :
  map box_label (renderedBoxes (boundingBoxes (Some seen)))
  = map obj_name
      (filter (fun o => match box_2d o with
                        | Some _ => true
                        | None => false
                        end) [unboxed; boxed]).
Proof.
  refine (proj1 (proj2 (proj2
            (@boundingBoxes_follow_objects seen [unboxed; boxed] _)))).
  reflexivity.
Defined.

Lemma box_inside_stage_witness :
  exists b,
    boundingBox boxed = Some b
    /\ box_label b = obj_name boxed
    /\ (JS.le JS.zero (box_top b) = true
        /\ JS.le (box_top b) (JS.of_Z 100) = true)
    /\ (JS.le JS.zero (box_height b) = true
        /\ JS.le (box_height b) (JS.of_Z 100) = true)
    /\ (JS.le JS.zero (box_left b) = true
        /\ JS.le (box_left b) (JS.of_Z 100) = true)
    /\ (JS.le JS.zero (box_width b) = true
        /\ JS.le (box_width b) (JS.of_Z 100) = true).
Proof.
  refine (@box_inside_stage boxed (tenth 1) (tenth 2) (tenth 5) (tenth 6)
            _ _ _ _ _ _ _);
    first [reflexivity | vm_compute; discriminate].
Defined.

Lemma currentSecs_guarded_witness :
  JS.le JS.zero (currentSecs (state playing)) = true
  /\ JS.le (currentSecs (state playing)) (duration (state playing)) = true.
Proof.
  refine (proj2 (currentSecs_guarded (state playing))
            (Q2Qc (inject_Z 60))
            (Q2Qc (inject_Z 12) / Q2Qc (inject_Z 60))%Qc _ _ _ _ _);
    first [reflexivity | vm_compute; discriminate].
Defined.

Example currentSecs_playing :
  JS.strict_eq (scrubberTime (state playing)) (JS.of_Q (1 # 5)) = true
  /\ JS.strict_eq (currentSecs (state playing)) (JS.of_Z 12) = true.
Proof. split; reflexivity. Qed.

Lemma marker_position_witness :
  JS.le JS.zero (markerPct Utils.timeToSecs (entry "0:10") (state loaded))
  = true
  /\ JS.le (markerPct Utils.timeToSecs (entry "0:10") (state loaded))
       (JS.of_Z 100) = true.
Proof.
  refine (proj1 (@marker_position Utils.timeToSecs (entry "0:10")
                   (state loaded)) _ _ _ _); reflexivity.
Defined.

Lemma formatTime_minutes_seconds_witness :
  formatTime (JS.Fin (Q2Qc (251 # 2)))
  = Some (JSArith.digits (Qfloor (Q2Qc (251 # 2)) / 60) ++ ":"
          ++ JSArith.padStart 2 "0"%char
               (JSArith.digits (Qfloor (Q2Qc (251 # 2)) mod 60)))%string.
Proof.
  refine (proj1 (@formatTime_minutes_seconds (Q2Qc (251 # 2)) _ _)).
  - vm_compute. discriminate.
  - vm_compute. reflexivity.
Defined.

Example formatTime_125_5 :
  formatTime (JS.Fin (Q2Qc (251 # 2))) = Some "2:05"%string.
Proof. reflexivity. Qed.

Lemma drag_holds_fraction_witness :
  let moved :=
    fst (dispatch Utils.timeToSecs props3 (at_time 12) (ScrubChange half)
           (fst (dispatch Utils.timeToSecs props3 (at_time 12)
                   ScrubPointerDown loaded))) in
  let held :=
    dispatchAll Utils.timeToSecs props3
      (timeUpdates "a.mp4" [at_time 12; at_time 13]) moved in
  scrubberTime (state (fst held)) = half /\ snd held = [].
Proof.
  refine (proj1 (@drag_holds_fraction Utils.timeToSecs props3 (at_time 12)
                   loaded 0%nat half "a.mp4"%string
                   [at_time 12; at_time 13] (at_time 30) _ _)).
  - split; reflexivity.
  - reflexivity.
Defined.
